(** * Tribeca AOP dashboard: the expense / cash-flow page

    A shallow embedding of [components/exp_dashboard.py]
    ([render_exp_dashboard]) and of the helpers it imports from
    [utils.helper], with the properties of the period aggregation and of the
    reconciliation table.

    Conventions.
    - Amounts are exact rationals ([Qc]); a cell that holds no number (NaN)
      is [None], and every pandas [sum] skips such cells.  The figures of
      the summary are embedded a second time over binary64 numbers
      ([Binary64]), where sums and differences are rounded.
    - A [pd.Timestamp] is a calendar date, compared field by field.
    - Text is ASCII; [lower], [title], [strip] follow Python's [str] methods
      on it.
    - [st.stop()] and an uncaught exception leave [render_exp_dashboard]
      without handing control back to its caller; [return] does hand it
      back.  The three ways out are the constructors of [outcome]. *)

From Stdlib Require Import Floats.PrimFloat.
From Stdlib Require Import ZArith QArith Qcanon String Ascii List.
From stdpp Require Import base option list gmap strings numbers sorting.

Local Open Scope string_scope.
Local Open Scope Z_scope.

(** ** Text *)

Module Text.

Definition code (c : ascii) : N := N_of_ascii c.

Definition is_upper (c : ascii) : bool := ((65 <=? code c) && (code c <=? 90))%N.
Definition is_lower (c : ascii) : bool := ((97 <=? code c) && (code c <=? 122))%N.
Definition is_cased (c : ascii) : bool := is_upper c || is_lower c.

(** Python's [str.isspace] on ASCII: space, \t, \n, \v, \f, \r and the
    separators 28-31. *)
Definition is_space (c : ascii) : bool :=
  ((code c =? 32) || ((9 <=? code c) && (code c <=? 13))
   || ((28 <=? code c) && (code c <=? 31)))%N.

Definition lower_char (c : ascii) : ascii :=
  if is_upper c then ascii_of_N (code c + 32) else c.
Definition upper_char (c : ascii) : ascii :=
  if is_lower c then ascii_of_N (code c - 32) else c.

(** [s.lower()] *)
Fixpoint lower (s : string) : string :=
  match s with
  | EmptyString => EmptyString
  | String c r => String (lower_char c) (lower r)
  end.

(** [s.title()]: a cased character is upper-cased when the character
    before it is not cased, and lower-cased otherwise. *)
Fixpoint title_from (prev_cased : bool) (s : string) : string :=
  match s with
  | EmptyString => EmptyString
  | String c r =>
      if is_cased c
      then String (if prev_cased then lower_char c else upper_char c)
                  (title_from true r)
      else String c (title_from false r)
  end.
Definition title (s : string) : string := title_from false s.

Fixpoint lstrip (s : string) : string :=
  match s with
  | String c r => if is_space c then lstrip r else s
  | EmptyString => EmptyString
  end.

Fixpoint rstrip (s : string) : string :=
  match s with
  | EmptyString => EmptyString
  | String c r =>
      match rstrip r with
      | EmptyString => if is_space c then EmptyString else String c EmptyString
      | r' => String c r'
      end
  end.

(** [s.strip()] *)
Definition strip (s : string) : string := rstrip (lstrip s).

(** [re.sub(r'\s+', ' ', s)]: every maximal run of white space becomes one
    blank. *)
Fixpoint collapse_from (in_run : bool) (s : string) : string :=
  match s with
  | EmptyString => EmptyString
  | String c r =>
      if is_space c
      then (if in_run then collapse_from true r
            else String " " (collapse_from true r))
      else String c (collapse_from false r)
  end.
Definition collapse_spaces (s : string) : string := collapse_from false s.

(** [x in s] on strings *)
Fixpoint contains (x s : string) : bool :=
  String.prefix x s ||
  match s with
  | EmptyString => false
  | String _ r => contains x r
  end.

(** [s.replace(pat, '')] for a non-empty [pat]: occurrences are removed
    from left to right, without overlap. [skip] counts the characters of a
    matched occurrence still to drop. *)
Fixpoint remove_from (pat : string) (skip : nat) (s : string) : string :=
  match s with
  | EmptyString => EmptyString
  | String c r =>
      match skip with
      | S k => remove_from pat k r
      | O =>
          if String.prefix pat s
          then remove_from pat (String.length pat - 1) r
          else String c (remove_from pat O r)
      end
  end.
Definition remove_all (pat s : string) : string := remove_from pat O s.

End Text.

(** ** Dates and the fiscal calendar *)

Record date := mk_date { d_year : Z; d_month : Z; d_day : Z }.

Global Instance date_eq_dec : EqDecision date.
Proof. solve_decision. Defined.

(** [a <= b] on timestamps *)
Definition date_leb (a b : date) : bool :=
  (d_year a <? d_year b)
  || ((d_year a =? d_year b)
      && ((d_month a <? d_month b)
          || ((d_month a =? d_month b) && (d_day a <=? d_day b)))).

(** [ts.replace(day=1)] *)
Definition replace_day1 (d : date) : date := mk_date (d_year d) (d_month d) 1.

Definition is_leap (y : Z) : bool :=
  ((y mod 4 =? 0) && negb (y mod 100 =? 0)) || (y mod 400 =? 0).

Definition days_in_month (y m : Z) : Z :=
  if m =? 2 then (if is_leap y then 29 else 28)
  else if (m =? 4) || (m =? 6) || (m =? 9) || (m =? 11) then 30
  else 31.

(** [d - pd.DateOffset(days=1)] for a first-of-month [d] *)
Definition day_before_first (d : date) : date :=
  if d_month d =? 1
  then mk_date (d_year d - 1) 12 31
  else mk_date (d_year d) (d_month d - 1) (days_in_month (d_year d) (d_month d - 1)).

Record window := mk_window { w_start : date; w_end : date }.

(** [(col >= start) & (col <= end)] *)
Definition in_window (w : window) (d : date) : bool :=
  date_leb (w_start w) d && date_leb d (w_end w).

Inductive period := MTD | QTD | YTD.

Record per_period (A : Type) := mk_per_period { p_mtd : A; p_qtd : A; p_ytd : A }.
Arguments mk_per_period {A} _ _ _.
Arguments p_mtd {A} _.
Arguments p_qtd {A} _.
Arguments p_ytd {A} _.

Definition at_period {A} (x : per_period A) (p : period) : A :=
  match p with MTD => p_mtd x | QTD => p_qtd x | YTD => p_ytd x end.

Definition per_period_map {A B} (f : A → B) (x : per_period A) : per_period B :=
  mk_per_period (f (p_mtd x)) (f (p_qtd x)) (f (p_ytd x)).

(** The first computation of the windows in [render_exp_dashboard]
    ("Time periods (last completed month)").  Its results are overwritten
    further down by the ones built from the [utils.helper] functions. *)
Definition early_windows (today : date) : per_period window :=
  let last_month_date := day_before_first (replace_day1 today) in
  let start_mtd := replace_day1 last_month_date in
  let end_mtd := last_month_date in
  let q_month := d_month last_month_date in
  let q_year := d_year last_month_date in
  let start_qtd :=
    if q_month <=? 3 then mk_date q_year 1 1
    else if q_month <=? 6 then mk_date q_year 4 1
    else if q_month <=? 9 then mk_date q_year 7 1
    else mk_date q_year 10 1 in
  let start_ytd :=
    if 4 <=? d_month last_month_date
    then mk_date (d_year last_month_date) 4 1
    else mk_date (d_year last_month_date - 1) 4 1 in
  mk_per_period (mk_window start_mtd end_mtd)
                (mk_window start_qtd end_mtd)
                (mk_window start_ytd end_mtd).

Module Helper.

(** Modelled from the spec: [utils.helper.get_last_completed_month] is
    imported by the page but is not among the sources.  Spec 4.1: the
    first day of the calendar month immediately preceding [today]'s month,
    rolling the year back at January. *)
Definition get_last_completed_month (today : date) : date :=
  if d_month today =? 1
  then mk_date (d_year today - 1) 12 1
  else mk_date (d_year today) (d_month today - 1) 1.

(** Modelled from the spec: [utils.helper.get_fy_start] is not among the
    sources.  Spec 4.1: April 1 of the current fiscal year; before April
    the fiscal year started in the previous calendar year. *)
Definition get_fy_start (d : date) : date :=
  if d_month d <? 4
  then mk_date (d_year d - 1) 4 1
  else mk_date (d_year d) 4 1.

(** Modelled from the spec: [utils.helper.get_qtr_start] is not among the
    sources.  Spec 4.1: the first day of the fiscal quarter
    (Apr/Jul/Oct/Jan) containing the date. *)
Definition get_qtr_start (d : date) : date :=
  if d_month d <? 4 then mk_date (d_year d) 1 1
  else if d_month d <? 7 then mk_date (d_year d) 4 1
  else if d_month d <? 10 then mk_date (d_year d) 7 1
  else mk_date (d_year d) 10 1.

(** Modelled from the spec: the fixed set of twelve canonical month names
    that [utils.helper.find_invalid_months] compares with is not among the
    sources and the spec does not list it.  Its example (section 8) accepts
    "Jan" and "Mar", so the names are taken in their three-letter form. *)
Definition canonical_months : list string :=
  ["Jan"; "Feb"; "Mar"; "Apr"; "May"; "Jun";
   "Jul"; "Aug"; "Sep"; "Oct"; "Nov"; "Dec"].

(** Modelled from the spec: [utils.helper.find_invalid_months] is not
    among the sources.  Spec 4.2 and 7: every value of the month column
    that is not one of the canonical names, all of them collected, each
    value once. *)
Definition find_invalid_months_in (valid : list string) (months : list string)
  : list string :=
  remove_dups (filter (λ m, m ∉ valid) months).

Definition find_invalid_months (months : list string) : list string :=
  find_invalid_months_in canonical_months months.

End Helper.

(** The windows the page works with ("Last completed month", MTD, QTD,
    YTD). *)
Definition last_month (today : date) : date := Helper.get_last_completed_month today.

Definition windows (today : date) : per_period window :=
  let last_month := last_month today in
  let start_mtd := replace_day1 last_month in
  let end_mtd := last_month in
  let start_qtd := Helper.get_qtr_start last_month in
  let end_qtd := last_month in
  let start_ytd := Helper.get_fy_start last_month in
  let end_ytd := last_month in
  mk_per_period (mk_window start_mtd end_mtd)
                (mk_window start_qtd end_qtd)
                (mk_window start_ytd end_ytd).

(** ** The two input tables *)

(** The inflow ledger ([target_df]).  [columns] is the header as read from
    the file; a row holds the cells of the columns the page uses. *)
Module TargetDf.
Record row := mk_row {
  project : option string;          (* None: empty cell *)
  month : string;                   (* the cell as text *)
  year : Z;
  dm_inflow_actual : option Qc;
  dm_inflow_target : option Qc
}.
Record table := mk_table { columns : list string; rows : list row }.
End TargetDf.

(** The expense ledger ([expense_df]).  The month column holds month
    numbers: the page pads them with [zfill(2)] to build a date. *)
Module ExpenseDf.
Record row := mk_row {
  category : string;
  month : Z;
  year : Z;
  actual : option Qc;
  target : option Qc
}.
Record table := mk_table { columns : list string; rows : list row }.
End ExpenseDf.

(** [columns.str.strip().str.lower().str.replace(r'\s+', ' ', regex=True)] *)
Definition normalize_column (c : string) : string :=
  Text.collapse_spaces (Text.lower (Text.strip c)).

Definition normalize_columns (cols : list string) : list string :=
  normalize_column <$> cols.

(** ** Messages and ways out of the page *)

Inductive message :=
  | MissingColumns (missing : list string)
      (* st.error(f"CSV is missing columns: {', '.join(missing)}") *)
  | InvalidMonths (invalid_months : list string)
      (* st.warning(f"The following month values are invalid: {', '.join(...)}") *)
  | InvalidMonthYear
      (* st.warning("Some rows have invalid month/year combinations. ...") *)
  | MonthstartError
      (* st.error(f"Error parsing 'monthstart': {e}") *)
  | NoMonthYearColumns
      (* st.error("CSV must include 'month' and 'year' columns ...") *)
  | MustContainColumns (required_cols : list string).
      (* st.error(f"CSV must contain columns: {required_cols}") *)

Inductive outcome (A : Type) :=
  | Done (a : A)               (* the code ran on *)
  | Returned (shown : message) (* [return]: control is back at the caller *)
  | Stopped (shown : message)  (* [st.stop()]: the run is halted here *)
  | Raised.                    (* an exception nobody catches *)
Arguments Done {A} _.
Arguments Returned {A} _.
Arguments Stopped {A} _.
Arguments Raised {A}.

Global Instance outcome_ret : MRet outcome := @Done.
Global Instance outcome_bind : MBind outcome := λ A B f x,
  match x with
  | Done a => f a
  | Returned m => Returned m
  | Stopped m => Stopped m
  | Raised => Raised
  end.

(** An optional value whose absence is an exception. *)
Definition or_raise {A} (x : option A) : outcome A :=
  match x with Some a => Done a | None => Raised end.

(** ** pandas' date parsing, on the texts the page builds *)

(** Month names [pd.to_datetime] reads, short and long. *)
Definition month_names : list (string * Z) :=
  [("Jan", 1); ("Feb", 2); ("Mar", 3); ("Apr", 4); ("May", 5); ("Jun", 6);
   ("Jul", 7); ("Aug", 8); ("Sep", 9); ("Oct", 10); ("Nov", 11); ("Dec", 12);
   ("January", 1); ("February", 2); ("March", 3); ("April", 4); ("June", 6);
   ("July", 7); ("August", 8); ("September", 9); ("October", 10);
   ("November", 11); ("December", 12)].

Definition month_number (name : string) : option Z :=
  (λ hit, hit.2.2) <$> list_find (λ p, p.1 = name) month_names.

(** A [pd.Timestamp] at midnight lies between 1677-09-22 and 2262-04-11. *)
Definition timestamp_ok (d : date) : bool :=
  date_leb (mk_date 1677 9 22) d && date_leb d (mk_date 2262 4 11).

(** [pd.to_datetime(month + ' ' + str(year), errors='coerce')] on one cell:
    [None] is NaT.  The texts followed are a month name of the table above
    with a four-digit year: such a text reads as the first day of that
    month, and as NaT when that day is outside the range of a Timestamp.
    On other texts pandas may still find a date (it reads "May 99" as
    1999-05-01 and "Sept 2025" as 2025-09-01) where this function has none;
    what is proved of the date of a row is stated for years of four
    digits. *)
Definition to_datetime_month_year (month : string) (year : Z) : option date :=
  m ← month_number month;
  let d := mk_date year m 1 in
  if timestamp_ok d then Some d else None.

(** [pd.to_datetime(str(year) + "-" + str(month).zfill(2) + "-01")] on one
    cell: [None] is the exception raised on a text that is no date.  The
    texts followed are those of a month from 1 to 12 and a four-digit year;
    on other texts pandas may still find a date (it reads "25-05-01" as
    2001-05-25) where this function has none. *)
Definition to_datetime_ymd (year month : Z) : option date :=
  let d := mk_date year month 1 in
  if (1 <=? month) && (month <=? 12) && timestamp_ok d then Some d else None.

(** ** Validation of the two tables *)

Definition required_cols_target_df : list string :=
  ["project"; "dm inflow actual"; "dm inflow target"].

Definition required_cols : list string :=
  ["category"; "month"; "year"; "actual"; "target"].

(** [[col for col in required if col not in columns]] *)
Definition missing_columns (required columns : list string) : list string :=
  filter (λ col, col ∉ columns) required.

(** [all(col in columns for col in required)], [required.issubset(columns)] *)
Definition has_columns (required columns : list string) : Prop :=
  Forall (λ col, col ∈ columns) required.

(** A row of [target_df] once [monthstart] is in place. *)
Record inflow_row := mk_inflow_row {
  i_project : option string;
  monthstart : date;
  i_actual : option Qc;
  i_target : option Qc
}.

(** [target_df['month'].astype(str).str.strip().str.title()] *)
Definition clean_month (r : TargetDf.row) : string :=
  Text.title (Text.strip (TargetDf.month r)).

Definition with_monthstart (r : TargetDf.row) : option inflow_row :=
  d ← to_datetime_month_year (clean_month r) (TargetDf.year r);
  Some (mk_inflow_row (TargetDf.project r) d
          (TargetDf.dm_inflow_actual r) (TargetDf.dm_inflow_target r)).

(** The number of columns of a header that carry a name.  [df[name]] is a
    column when there is one, and a frame when there are several. *)
Definition occurrences (name : string) (columns : list string) : nat :=
  length (filter (λ c, c = name) columns).

(** The checks on [target_df] at the top of [render_exp_dashboard], up to
    the [monthstart] column.  When the header has several "month" columns,
    [target_df['month'].astype(str)] is a frame, which has no [.str]: the
    clean-up of the months raises.  When it has several "year" columns, the
    text handed to [pd.to_datetime] is built from a frame and the call
    raises inside the [try]: the [except] branch shows its message and
    stops. *)
Definition validate_target (target_df : TargetDf.table) : outcome (list inflow_row) :=
  let columns := normalize_columns (TargetDf.columns target_df) in
  if decide (has_columns required_cols_target_df columns) then
    if decide ("month" ∈ columns ∧ "year" ∈ columns) then
      if decide (occurrences "month" columns = 1%nat) then
        let invalid_months :=
          Helper.find_invalid_months (clean_month <$> TargetDf.rows target_df) in
        if decide (invalid_months = []) then
          if decide (occurrences "year" columns = 1%nat) then
            match mapM with_monthstart (TargetDf.rows target_df) with
            | Some rows => Done rows
            | None => Stopped InvalidMonthYear    (* monthstart.isna().any() *)
            end
          else Stopped MonthstartError            (* except Exception as e *)
        else Stopped (InvalidMonths invalid_months)
      else Raised                                 (* AttributeError *)
    else Stopped NoMonthYearColumns
  else Returned (MissingColumns (missing_columns required_cols_target_df columns)).

(** The check on [expense_df], made after the windows are computed. *)
Definition validate_expense (expense_df : ExpenseDf.table) : outcome unit :=
  let columns := normalize_columns (ExpenseDf.columns expense_df) in
  if decide (has_columns required_cols columns) then Done ()
  else Stopped (MustContainColumns required_cols).

(** ** Amounts *)

Definition total (l : list Qc) : Qc := foldr Qcplus 0%Qc l.

(** A NaN cell counts for nothing in a pandas [sum]. *)
Definition nan0 (x : option Qc) : Qc := default 0%Qc x.

(** [Series.sum()] *)
Definition series_total (l : list (option Qc)) : Qc := total (nan0 <$> l).

(** [Series.mean()]: the mean of the cells that hold a number, NaN when
    there is none. *)
Definition mean (l : list Qc) : option Qc :=
  match l with
  | [] => None
  | _ => Some (total l / Qc_of_Z (Z.of_nat (length l)))%Qc
  end.

(** ** Reshaping the expense ledger *)

(** A row of [df_melted]: one value of one kind ("actual" or "target"). *)
Record melted := mk_melted {
  m_month : Z;
  m_year : Z;
  m_category : string;
  m_type : string;
  m_value : option Qc
}.

(** [expense_df.melt(id_vars=[month, year, category],
    value_vars=[actual, target], var_name="type", value_name="value")]:
    the rows of the first value column, then those of the second. *)
Definition melt (rows : list ExpenseDf.row) : list melted :=
  ((λ r, mk_melted (ExpenseDf.month r) (ExpenseDf.year r) (ExpenseDf.category r)
           "actual" (ExpenseDf.actual r)) <$> rows)
  ++ ((λ r, mk_melted (ExpenseDf.month r) (ExpenseDf.year r) (ExpenseDf.category r)
           "target" (ExpenseDf.target r)) <$> rows).

Definition Z_pair_le (a b : Z * Z) : Prop :=
  a.1 < b.1 ∨ (a.1 = b.1 ∧ a.2 ≤ b.2).

Definition string_pair_le (a b : string * string) : Prop :=
  (a.1 ≠ b.1 ∧ String.le a.1 b.1) ∨ (a.1 = b.1 ∧ String.le a.2 b.2).

Global Instance Z_pair_le_dec : RelDecision Z_pair_le.
Proof. intros a b. unfold Z_pair_le. apply _. Defined.
Global Instance string_pair_le_dec : RelDecision string_pair_le.
Proof. intros a b. unfold string_pair_le. apply _. Defined.

(** The numbers of one group of [pivot_table]: the values of the melted
    rows with this (month, year) and this (category, type). *)
Definition group_values (ml : list melted) (ix : Z * Z) (col : string * string)
  : list Qc :=
  omap (λ x, if decide ((m_month x, m_year x) = ix
                        ∧ (m_category x, m_type x) = col)
             then m_value x else None) ml.

(** Groups whose values are all NaN are dropped before the table is laid
    out, so only the melted rows that hold a number give rise to index
    entries and columns. *)
Definition live (ml : list melted) : list melted :=
  filter (λ x, is_Some (m_value x)) ml.

Definition pivot_index (ml : list melted) : list (Z * Z) :=
  merge_sort Z_pair_le (remove_dups ((λ x, (m_month x, m_year x)) <$> live ml)).

Definition pivot_columns (ml : list melted) : list (string * string) :=
  merge_sort string_pair_le
    (remove_dups ((λ x, (m_category x, m_type x)) <$> live ml)).

(** One cell of [df_melted.pivot_table(index=[month, year],
    columns=[category, type], values="value")]; the aggregation is the
    default one, the mean. *)
Definition pivot_cell (ml : list melted) (ix : Z * Z) (col : string * string)
  : option Qc :=
  mean (group_values ml ix col).

(** The wide frame [df].  Its columns are "month", "year" and the value
    columns [value_columns]; a row keeps its value cells with their labels,
    in column order. *)
Record wide_row := mk_wide_row {
  wr_month : date;
  wr_year : Z;
  wr_cells : list (string * option Qc)
}.

Record wide_frame := mk_wide_frame {
  value_columns : list string;
  wide_rows : list wide_row
}.

(** The flattened label of a value column (step 4), after step 6. *)
Definition flat_label (col : string * string) : string :=
  Text.lower (Text.strip (Text.lower col.1 +:+ "_" +:+ Text.lower col.2)).

(** Steps 2 to 7: melt, pivot, flatten the labels, build the month date.
    [None]: [pd.to_datetime] raised on a row. *)
Definition reshape (rows : list ExpenseDf.row) : option wide_frame :=
  let ml := melt rows in
  let cols := pivot_columns ml in
  wrows ← mapM (λ ix,
             d ← to_datetime_ymd ix.2 ix.1;
             Some (mk_wide_row d ix.2
                     ((λ col, (flat_label col, pivot_cell ml ix col)) <$> cols)))
           (pivot_index ml);
  Some (mk_wide_frame (flat_label <$> cols) wrows).

(** [df.columns] before and after the total column is added. *)
Definition df_columns (df : wide_frame) : list string :=
  "month" :: "year" :: value_columns df.

Definition final_columns (df : wide_frame) : list string :=
  df_columns df ++ ["total_actual_expense"].

(** Step 8 *)
Definition allow_list : list string :=
  ["salary"; "legal and professional"; "rent"; "hotel & travel expenses";
   "marketing exp."; "misc expenses"; "investments"; "capex"].

Definition is_expense_col (col : string) : bool :=
  existsb (λ x, Text.contains x col) allow_list && Text.contains "actual" col.

Definition expense_cols (df : wide_frame) : list string :=
  filter (λ col, is_expense_col col) (df_columns df).

(** [df[cols]] on one row: for each label asked for, the cells of every
    column that carries it. *)
Definition row_select (r : wide_row) (cols : list string) : list (option Qc) :=
  col ← cols; snd <$> filter (λ cell, cell.1 = col) (wr_cells r).

(** Step 9: [df[expense_cols].sum(axis=1)], for one row. *)
Definition total_actual_expense (df : wide_frame) (r : wide_row) : Qc :=
  series_total (row_select r (expense_cols df)).

(** ** Period figures *)

Record figure := mk_figure { Target : Qc; Achieved : Qc; Delta : Qc }.

Definition zero_figure : figure := mk_figure 0 0 0.

Global Instance figure_inhabited : Inhabited figure := populate zero_figure.

(** [compute_dm_inflows(target_df, start, end)] *)
Definition compute_dm_inflows (target_df : list inflow_row) (w : window) : figure :=
  let d := filter (λ r, in_window w (monthstart r)) target_df in
  let target := series_total (i_target <$> d) in
  let actual := series_total (i_actual <$> d) in
  let delta := (actual - target)%Qc in
  mk_figure target actual delta.

(** The cell of a row under a label. *)
Definition cell (r : wide_row) (col : string) : option Qc :=
  hit ← list_find (λ c, c.1 = col) (wr_cells r); hit.2.2.

(** [pd.to_numeric(filtered[col], errors='coerce').sum()].  When [col]
    labels one column, [filtered[col]] is that column; when it labels
    several, it is a frame and [pd.to_numeric] raises ([None]). *)
Definition column_sum (df : wide_frame) (filtered : list wide_row) (col : string)
  : option Qc :=
  if decide (length (filter (λ c, c = col) (final_columns df)) = 1%nat)
  then Some (series_total ((λ r, cell r col) <$> filtered))
  else None.

(** The loop of [get_expense_dict] over [expense_cols], [result] being the
    dictionary built so far. *)
Fixpoint expense_loop (df : wide_frame) (filtered : list wide_row)
    (cols : list string) (result : gmap string figure)
  : option (gmap string figure) :=
  match cols with
  | [] => Some result
  | col :: cols' =>
      if Text.contains "actual" col then
        let category := Text.remove_all "_actual" col in
        let actual_col := col in
        let target_col := category +:+ "_target" in
        if decide (target_col ∈ final_columns df) then
          actual ← column_sum df filtered actual_col;
          target ← column_sum df filtered target_col;
          let delta := (actual - target)%Qc in
          expense_loop df filtered cols'
            (<[Text.title category := mk_figure target actual delta]> result)
        else expense_loop df filtered cols' result
      else expense_loop df filtered cols' result
  end.

(** [get_expense_dict(df, start, end)]; [None] when it raises. *)
Definition get_expense_dict (df : wide_frame) (w : window)
  : option (gmap string figure) :=
  let filtered := filter (λ r, in_window w (wr_month r)) (wide_rows df) in
  expense_loop df filtered (expense_cols df) ∅.

(** ** Reconciliation *)

Definition figure_add (a b : figure) : figure :=
  mk_figure (Target a + Target b) (Achieved a + Achieved b) (Delta a + Delta b).

(** [sorted(mtd_exp.keys())] *)
Definition expense_heads (mtd_exp : gmap string figure) : list string :=
  merge_sort String.le (map_to_list mtd_exp).*1.

(** The body of the loop over the expense heads: the three dictionaries are
    read at [head] ([None]: a KeyError) and added to the running totals. *)
Definition add_head (exps : per_period (gmap string figure))
    (totals : per_period figure) (head : string) : option (per_period figure) :=
  m ← p_mtd exps !! head;
  q ← p_qtd exps !! head;
  y ← p_ytd exps !! head;
  Some (mk_per_period (figure_add (p_mtd totals) m)
                      (figure_add (p_qtd totals) q)
                      (figure_add (p_ytd totals) y)).

Fixpoint totals_loop (exps : per_period (gmap string figure))
    (heads : list string) (totals : per_period figure)
  : option (per_period figure) :=
  match heads with
  | [] => Some totals
  | head :: heads' => totals' ← add_head exps totals head;
                      totals_loop exps heads' totals'
  end.

(** The "Total Outflow" figures. *)
Definition outflow_totals (exps : per_period (gmap string figure))
  : option (per_period figure) :=
  totals_loop exps (expense_heads (p_mtd exps))
    (mk_per_period zero_figure zero_figure zero_figure).

(** One entry of [net_cash], with its [Delta] filled in. *)
Definition net_cash_figure (inflow totals : figure) : figure :=
  let target := (Target inflow - Target totals)%Qc in
  let achieved := (Achieved inflow - Achieved totals)%Qc in
  mk_figure target achieved (achieved - target)%Qc.

Definition net_cash (inflows totals : per_period figure) : per_period figure :=
  mk_per_period (net_cash_figure (p_mtd inflows) (p_mtd totals))
                (net_cash_figure (p_qtd inflows) (p_qtd totals))
                (net_cash_figure (p_ytd inflows) (p_ytd totals)).

(** The numbers behind the "Cash Flow Summary" table. *)
Record summary := mk_summary {
  s_inflow : per_period figure;               (* Total Inflow *)
  s_heads : list string;                      (* the expense rows, in order *)
  s_exp : per_period (gmap string figure);    (* mtd_exp, qtd_exp, ytd_exp *)
  s_totals : per_period figure;               (* Total Outflow *)
  s_net_cash : per_period figure              (* Net Cash Flow *)
}.

Definition cash_flow_summary (target_df : list inflow_row) (df : wide_frame)
    (ws : per_period window) : option summary :=
  let inflows := per_period_map (compute_dm_inflows target_df) ws in
  mtd_exp ← get_expense_dict df (p_mtd ws);
  qtd_exp ← get_expense_dict df (p_qtd ws);
  ytd_exp ← get_expense_dict df (p_ytd ws);
  let exps := mk_per_period mtd_exp qtd_exp ytd_exp in
  totals ← outflow_totals exps;
  Some (mk_summary inflows (expense_heads mtd_exp) exps totals
          (net_cash inflows totals)).

(** ** Inflow distribution by project *)

(** A row of the grouped inflow frame [df_]. *)
Record grouped_row := mk_grouped_row {
  g_project : string;
  g_monthstart : date;
  g_month : date;
  inflow : Qc
}.

Definition project_date_le (a b : string * date) : Prop :=
  (a.1 ≠ b.1 ∧ String.le a.1 b.1) ∨ (a.1 = b.1 ∧ date_leb a.2 b.2).

Global Instance project_date_le_dec : RelDecision project_date_le.
Proof. intros a b. unfold project_date_le. apply _. Defined.

(** The groups of [groupby([project, year, month, monthstart])]: year and
    month are those of [monthstart]; rows without a project are left out. *)
Definition group_keys (target_df : list inflow_row) : list (string * date) :=
  merge_sort project_date_le
    (remove_dups (omap (λ r, p ← i_project r; Some (p, monthstart r)) target_df)).

(** [df_], with its "month" column rebuilt from year and month. *)
Definition grouped_inflow (target_df : list inflow_row) : option (list grouped_row) :=
  mapM (λ k,
     month ← to_datetime_ymd (d_year k.2) (d_month k.2);
     Some (mk_grouped_row k.1 k.2 month
             (series_total
                (i_actual <$> filter (λ r, i_project r = Some k.1 ∧ monthstart r = k.2)
                                target_df))))
    (group_keys target_df).

(** [Series.unique()]: first occurrences, in order. *)
Fixpoint unique (l : list string) : list string :=
  match l with
  | [] => []
  | x :: r => x :: filter (λ y, y ≠ x) (unique r)
  end.

Definition all_projects : string := "All Projects".

(** The project filter of the side bar. *)
Definition filter_project (selected_project : string) (df_ : list grouped_row)
  : list grouped_row :=
  if decide (selected_project ≠ all_projects)
  then filter (λ r, g_project r = selected_project) df_
  else df_.

(** [get_inflow_by_project(df, start_date, end_date)] *)
Definition get_inflow_by_project (df_ : list grouped_row) (w : window)
  : list (string * Qc) :=
  let d := filter (λ r, in_window w (g_month r)) df_ in
  (λ p, (p, total (inflow <$> filter (λ r, g_project r = p) d)))
    <$> merge_sort String.le (remove_dups (g_project <$> d)).

Definition lookup0 (s : list (string * Qc)) (p : string) : Qc :=
  default 0%Qc ((λ hit, hit.2.2) <$> list_find (λ e, e.1 = p) s).

(** [pd.concat([mtd, qtd, ytd], axis=1).fillna(0).reset_index()] *)
Definition inflow_summary (ws : per_period window) (df_ : list grouped_row)
  : list (string * (Qc * Qc * Qc)) :=
  let inflow_mtd := get_inflow_by_project df_ (p_mtd ws) in
  let inflow_qtd := get_inflow_by_project df_ (p_qtd ws) in
  let inflow_ytd := get_inflow_by_project df_ (p_ytd ws) in
  (λ p, (p, (lookup0 inflow_mtd p, lookup0 inflow_qtd p, lookup0 inflow_ytd p)))
    <$> unique (inflow_mtd.*1 ++ inflow_qtd.*1 ++ inflow_ytd.*1).

(** ** The page *)

Record page := mk_page {
  pg_project_list : list string;
  pg_inflow_summary : list (string * (Qc * Qc * Qc));
  pg_summary : summary
}.

(** [render_exp_dashboard(expense_df, target_df, today)], with the project
    picked in the side bar as one more argument.  The HTML and the chart
    drawn from these values are left out. *)
Definition render_exp_dashboard (expense_df : ExpenseDf.table)
    (target_df : TargetDf.table) (today : date) (selected_project : string)
  : outcome page :=
  target_rows ← validate_target target_df;
  _ ← validate_expense expense_df;
  df ← or_raise (reshape (ExpenseDf.rows expense_df));
  df_ ← or_raise (grouped_inflow target_rows);
  let project_list := unique (g_project <$> df_) in
  let df_ := filter_project selected_project df_ in
  let ws := windows today in
  let distribution := inflow_summary ws df_ in
  s ← or_raise (cash_flow_summary target_rows df ws);
  mret (mk_page project_list distribution s).

(** ** The last character of a text *)

Fixpoint last_char (s : string) : option ascii :=
  match s with
  | EmptyString => None
  | String c r => match last_char r with None => Some c | Some d => Some d end
  end.

(** ** Sums over a dictionary of figures *)

(** The figures of a dictionary, read at a list of heads. *)
Definition figures_at (d : gmap string figure) (heads : list string) : list figure :=
  (λ head, d !!! head) <$> heads.

Definition add_all (acc : figure) (l : list figure) : figure :=
  mk_figure (Target acc + total (Target <$> l))
            (Achieved acc + total (Achieved <$> l))
            (Delta acc + total (Delta <$> l)).

(** The sum of the figures of a dictionary, field by field. *)
Definition category_sum (d : gmap string figure) : figure :=
  add_all zero_figure (map_to_list d).*2.

(** The summary part of a run of the page. *)
Definition summary_of (o : outcome page) : outcome summary :=
  p ← o; mret (pg_summary p).

(** ** The total of a row as the specification words it *)

(** The sum of the "<category>_actual" columns of the categories on the
    allow-list, and of no other column. *)
Definition allow_listed_total (r : wide_row) : Qc :=
  series_total (row_select r ((λ category, category +:+ "_actual") <$> allow_list)).

(** The numbers that the records of one month and one category hold in
    one of their two value fields. *)
Definition record_values (field : ExpenseDf.row → option Qc)
    (rows : list ExpenseDf.row) (m y : Z) (cat : string) : list Qc :=
  omap (λ e, if decide ((ExpenseDf.month e, ExpenseDf.year e) = (m, y)
                        ∧ ExpenseDf.category e = cat)
             then field e else None) rows.

(** ** The figures in binary64 *)

(** A ledger column with a decimal point or an empty cell in it is a column
    of binary64 numbers, and the sums and differences of the summary are
    then rounded.  The arithmetic of [compute_dm_inflows], of the loop of
    [get_expense_dict], of the running totals and of [net_cash] is given
    here once more over [float], the binary64 numbers of the kernel, for
    columns of a few cells, which pandas adds up from the first to the
    last. *)
Module Binary64.

Record figure := mk_figure { Target : float; Achieved : float; Delta : float }.

(** [Series.sum()]: NaN cells are skipped. *)
Definition series_total (l : list (option float)) : float :=
  fold_left (λ acc x, match x with Some v => (acc + v)%float | None => acc end)
    l 0%float.

Record inflow_row := mk_inflow_row {
  monthstart : date;
  i_actual : option float;
  i_target : option float
}.

(** [compute_dm_inflows(target_df, start, end)] *)
Definition compute_dm_inflows (target_df : list inflow_row) (w : window) : figure :=
  let d := filter (λ r, in_window w (monthstart r)) target_df in
  let target := series_total (i_target <$> d) in
  let actual := series_total (i_actual <$> d) in
  let delta := (actual - target)%float in
  mk_figure target actual delta.

(** The figure that the loop of [get_expense_dict] files under a head, from
    the cells that the actual and the target column of the category have
    in the rows of the window. *)
Definition expense_figure (actual_col target_col : list (option float)) : figure :=
  let actual := series_total actual_col in
  let target := series_total target_col in
  let delta := (actual - target)%float in
  mk_figure target actual delta.

(** [totals[period][...] += ...exp[head][...]], for the heads in order,
    from 0. *)
Definition figure_add (a b : figure) : figure :=
  mk_figure (Target a + Target b) (Achieved a + Achieved b) (Delta a + Delta b).

Definition outflow_total (figures : list figure) : figure :=
  fold_left figure_add figures (mk_figure 0 0 0).

(** One entry of [net_cash], with its [Delta] filled in. *)
Definition net_cash_figure (inflow totals : figure) : figure :=
  let target := (Target inflow - Target totals)%float in
  let achieved := (Achieved inflow - Achieved totals)%float in
  mk_figure target achieved (achieved - target)%float.

(** The number a CSV reader gives for a text with one decimal: the
    binary64 number nearest to [n / 10]. *)
Definition tenths (n : float) : float := (n / 10)%float.

(** An inflow ledger with one row for May 2025, actual 100.1 and target
    90.2, and the cells that one expense category has in May 2025, actual
    30.3 and target 25.4. *)
Definition inflow_rows_decimal : list inflow_row :=
  [mk_inflow_row (mk_date 2025 5 1) (Some (tenths 1001)) (Some (tenths 902))].

Definition rent_actual_decimal : list (option float) := [Some (tenths 303)].
Definition rent_target_decimal : list (option float) := [Some (tenths 254)].

End Binary64.

(** ** Sample data *)

Definition amount (z : Z) : option Qc := Some (Qc_of_Z z).

Definition target_header : list string :=
  ["Project"; "Month"; "Year"; "DM Inflow Actual"; "DM Inflow Target"].

Definition expense_header : list string :=
  ["Category"; "Month"; "Year"; "Actual"; "Target"].

(** An inflow ledger with a misspelt month. *)
Definition target_typo : TargetDf.table :=
  TargetDf.mk_table target_header
    [TargetDf.mk_row (Some "Alpha") "Jan" 2025 (amount 10) (amount 12);
     TargetDf.mk_row (Some "Alpha") "Febuary" 2025 (amount 20) (amount 18);
     TargetDf.mk_row (Some "Beta") "Mar" 2025 (amount 5) (amount 5)].

(** A sound inflow ledger, for May 2025 ("May" is a month name in its
    short and in its long form alike). *)
Definition target_ok : TargetDf.table :=
  TargetDf.mk_table target_header
    [TargetDf.mk_row (Some "Alpha") " may" 2025 (amount 10) (amount 20);
     TargetDf.mk_row (Some "Beta") "May" 2025 (amount 1) (amount 2);
     TargetDf.mk_row (Some "Alpha") "MAY" 2025 (amount 5) None].

(** Inflow ledgers that fail the other checks. *)
Definition target_no_columns : TargetDf.table :=
  TargetDf.mk_table ["Project"; "Month"; "Year"; "DM Inflow Target"]
    (TargetDf.rows target_ok).

Definition target_no_year : TargetDf.table :=
  TargetDf.mk_table ["Project"; "Month"; "DM Inflow Actual"; "DM Inflow Target"]
    (TargetDf.rows target_ok).

Definition target_far_year : TargetDf.table :=
  TargetDf.mk_table target_header
    [TargetDf.mk_row (Some "Alpha") "May" 3025 (amount 10) (amount 20)].

(** An inflow ledger whose months are written in lower case, in upper
    case and with blanks around them, one of them misspelt twice. *)
Definition target_raw_months : TargetDf.table :=
  TargetDf.mk_table target_header
    [TargetDf.mk_row (Some "Alpha") " jan" 2025 (amount 10) (amount 12);
     TargetDf.mk_row (Some "Alpha") "FEBUARY" 2025 (amount 20) (amount 18);
     TargetDf.mk_row (Some "Beta") "mAr " 2025 (amount 5) (amount 5);
     TargetDf.mk_row (Some "Beta") "febuary" 2025 (amount 6) (amount 6)].

(** Inflow ledgers whose header has the year column, or the month column,
    twice: "Year" and "year " are the same name once normalised. *)
Definition target_two_years : TargetDf.table :=
  TargetDf.mk_table
    ["Project"; "Month"; "Year"; "year "; "DM Inflow Actual"; "DM Inflow Target"]
    (TargetDf.rows target_ok).

Definition target_two_months : TargetDf.table :=
  TargetDf.mk_table
    ["Project"; "Month"; " MONTH"; "Year"; "DM Inflow Actual"; "DM Inflow Target"]
    (TargetDf.rows target_ok).

(** An inflow ledger with a year before the first Timestamp. *)
Definition target_early_year : TargetDf.table :=
  TargetDf.mk_table target_header
    [TargetDf.mk_row (Some "Alpha") "May" 1500 (amount 10) (amount 20)].

(** An expense ledger without its "target" column. *)
Definition expense_no_target : ExpenseDf.table :=
  ExpenseDf.mk_table ["Category"; "Month"; "Year"; "Actual"]
    [ExpenseDf.mk_row "Rent" 6 2025 (amount 100) None].

(** An expense ledger with a category off the allow-list whose name
    contains an allow-listed one. *)
Definition expense_rental : ExpenseDf.table :=
  ExpenseDf.mk_table expense_header
    [ExpenseDf.mk_row "Rent" 6 2025 (amount 100) (amount 150);
     ExpenseDf.mk_row "Rental Income" 6 2025 (amount 50) (amount 40)].

(** An expense ledger with two records for rent in May 2025. *)
Definition expense_twice : ExpenseDf.table :=
  ExpenseDf.mk_table expense_header
    [ExpenseDf.mk_row "Rent" 5 2025 (amount 100) (amount 150);
     ExpenseDf.mk_row "Rent" 5 2025 (amount 200) (amount 170);
     ExpenseDf.mk_row "Salary" 4 2025 (amount 70) (amount 60)].

(** An expense ledger with two categories that differ by the case of a
    letter only, and its wide frame: the flattened labels are lower-cased,
    so both categories are labelled alike. *)
Definition expense_rent_rent : ExpenseDf.table :=
  ExpenseDf.mk_table expense_header
    [ExpenseDf.mk_row "Rent" 5 2025 (amount 100) (amount 150);
     ExpenseDf.mk_row "rent" 5 2025 (amount 30) (amount 20)].

Definition rent_rent_frame : wide_frame :=
  mk_wide_frame ["rent_actual"; "rent_target"; "rent_actual"; "rent_target"]
    [mk_wide_row (mk_date 2025 5 1) 2025
       [("rent_actual", amount 100); ("rent_target", amount 150);
        ("rent_actual", amount 30); ("rent_target", amount 20)]].

(** The wide frame of [expense_rental]: one row, for June 2025. *)
Definition rental_row : wide_row :=
  mk_wide_row (mk_date 2025 6 1) 2025
    [("rent_actual", amount 100); ("rent_target", amount 150);
     ("rental income_actual", amount 50); ("rental income_target", amount 40)].

Definition rental_frame : wide_frame :=
  mk_wide_frame
    ["rent_actual"; "rent_target"; "rental income_actual"; "rental income_target"]
    [rental_row].

(** The wide frame of [expense_twice]: April and May 2025. *)
Definition twice_frame : wide_frame :=
  mk_wide_frame ["rent_actual"; "rent_target"; "salary_actual"; "salary_target"]
    [mk_wide_row (mk_date 2025 4 1) 2025
       [("rent_actual", None); ("rent_target", None);
        ("salary_actual", amount 70); ("salary_target", amount 60)];
     mk_wide_row (mk_date 2025 5 1) 2025
       [("rent_actual", amount 150); ("rent_target", amount 160);
        ("salary_actual", None); ("salary_target", None)]].

(** The rows of [target_ok] with their [monthstart]. *)
Definition inflow_rows_ok : list inflow_row :=
  [mk_inflow_row (Some "Alpha") (mk_date 2025 5 1) (amount 10) (amount 20);
   mk_inflow_row (Some "Beta") (mk_date 2025 5 1) (amount 1) (amount 2);
   mk_inflow_row (Some "Alpha") (mk_date 2025 5 1) (amount 5) None].

(** Reference dates: the one of the specification's example, and one for
    which May 2025 is the last completed month. *)
Definition july_11 : date := mk_date 2025 7 11.
Definition june_11 : date := mk_date 2025 6 11.

(** A window well before any of the sample rows. *)
Definition window_2020 : window := mk_window (mk_date 2020 1 1) (mk_date 2020 3 1).

(** ** Notions used in the properties *)

(** A text made of letters only. *)
Fixpoint letters (s : string) : bool :=
  match s with
  | EmptyString => true
  | String c r => Text.is_cased c && letters r
  end.

(** A text that does not begin, or does not end, with white space. *)
Definition starts_clean (s : string) : Prop :=
  match s with
  | EmptyString => True
  | String c _ => Text.is_space c = false
  end.

Definition ends_clean (s : string) : Prop :=
  match last_char s with
  | None => True
  | Some c => Text.is_space c = false
  end.

(** The row of the grouped frame for one project and month. *)
Definition grouped_row_of (target_df : list inflow_row) (k : string * date)
  : grouped_row :=
  mk_grouped_row k.1 k.2 (mk_date (d_year k.2) (d_month k.2) 1)
    (series_total
       (i_actual <$> filter (λ r, i_project r = Some k.1 ∧ monthstart r = k.2)
                       target_df)).

(** The key under which [groupby] files a row; none for a row without
    project. *)
Definition group_key (r : inflow_row) : option (string * date) :=
  p ← i_project r; Some (p, monthstart r).

(** The inflow of one project in one window of the grouped frame. *)
Definition project_total (df_ : list grouped_row) (w : window) (p : string) : Qc :=
  total (inflow <$> filter (λ g, g_project g = p ∧ in_window w (g_month g)) df_).

(** The inflow of all projects in one window of the grouped frame. *)
Definition window_total (df_ : list grouped_row) (w : window) : Qc :=
  total (inflow <$> filter (λ g, in_window w (g_month g)) df_).

(** [inflow_summary[["MTD Inflow", "QTD Inflow", "YTD Inflow"]].sum()] *)
Definition total_row (s : list (string * (Qc * Qc * Qc))) : Qc * Qc * Qc :=
  (total ((λ e, e.2.1.1) <$> s),
   total ((λ e, e.2.1.2) <$> s),
   total ((λ e, e.2.2) <$> s)).

(** The grouped frame of [inflow_rows_ok]. *)
Definition grouped_ok : list grouped_row :=
  [mk_grouped_row "Alpha" (mk_date 2025 5 1) (mk_date 2025 5 1) (Qc_of_Z 15);
   mk_grouped_row "Beta" (mk_date 2025 5 1) (mk_date 2025 5 1) (Qc_of_Z 1)].

(** The projects of the distribution table, in its order. *)
Definition summary_projects (ws : per_period window) (df_ : list grouped_row)
  : list string :=
  unique ((get_inflow_by_project df_ (p_mtd ws)).*1
          ++ (get_inflow_by_project df_ (p_qtd ws)).*1
          ++ (get_inflow_by_project df_ (p_ytd ws)).*1)%list.

Definition summary_row (ws : per_period window) (df_ : list grouped_row) (p : string)
  : string * (Qc * Qc * Qc) :=
  (p, (project_total df_ (p_mtd ws) p, project_total df_ (p_qtd ws) p,
       project_total df_ (p_ytd ws) p)).

(** One of the three amounts of a row of the table. *)
Definition triple_at (t : Qc * Qc * Qc) (p : period) : Qc :=
  match p with MTD => t.1.1 | QTD => t.1.2 | YTD => t.2 end.

(** The row of the wide frame for one (month, year) of the pivot. *)
Definition wide_row_of (rows : list ExpenseDf.row) (ix : Z * Z) : wide_row :=
  mk_wide_row (mk_date ix.2 ix.1 1) ix.2
    ((λ col, (flat_label col, pivot_cell (melt rows) ix col))
       <$> pivot_columns (melt rows)).

(** A record that holds a number, as actual or as target. *)
Definition has_number (e : ExpenseDf.row) : Prop :=
  is_Some (ExpenseDf.actual e) ∨ is_Some (ExpenseDf.target e).

(** The category that [get_expense_dict] reads off an expense column, the
    label of its target column, and the head it files the figure under. *)
Definition category_of (col : string) : string := Text.remove_all "_actual" col.
Definition target_col_of (col : string) : string := category_of col +:+ "_target".
Definition head_of (col : string) : string := Text.title (category_of col).

(** The figure of an expense column over some rows. *)
Definition column_figure (filtered : list wide_row) (col : string) : figure :=
  let actual := series_total ((λ r, cell r col) <$> filtered) in
  let target := series_total ((λ r, cell r (target_col_of col)) <$> filtered) in
  mk_figure target actual (actual - target)%Qc.

(** An expense ledger in which rent has no target. *)
Definition expense_no_rent_target : list ExpenseDf.row :=
  [ExpenseDf.mk_row "Rent" 5 2025 (amount 100) None;
   ExpenseDf.mk_row "Salary" 5 2025 (amount 70) (amount 60)].

(** * Properties *)

(** ** Text *)

Example title_category : Text.title "hotel & travel expenses" = "Hotel & Travel Expenses".
Proof. reflexivity. Qed.

Example title_upper : Text.title "FEBUARY" = "Febuary".
Proof. reflexivity. Qed.

Example normalize_column_ex : normalize_column "  DM   Inflow Actual " = "dm inflow actual".
Proof. reflexivity. Qed.

Example remove_all_twice : Text.remove_all "_actual" "rent_actual_actual" = "rent".
Proof. reflexivity. Qed.

Example contains_inside : Text.contains "rent" "parent co_actual" = true.
Proof. reflexivity. Qed.

(** ** Fiscal windows *)

Lemma date_leb_refl d : date_leb d d = true.
Proof.
  unfold date_leb. rewrite !Z.eqb_refl, Z.leb_refl.
  rewrite !orb_true_r. reflexivity.
Qed.

Lemma date_leb_antisym a b : date_leb a b = true → date_leb b a = true → a = b.
Proof.
  destruct a as [ya ma da], b as [yb mb db]. unfold date_leb; simpl.
  intros H1 H2. f_equal; lia.
Qed.

(** All three windows end at the last completed month. *)
Lemma windows_end today p : w_end (at_period (windows today) p) = last_month today.
Proof. destruct p; reflexivity. Qed.

(** The month window holds one month marker only. *)
Lemma in_mtd_window today d :
  in_window (p_mtd (windows today)) d = true ↔ d = last_month today.
Proof.
  unfold in_window, windows; simpl. split.
  - intros [H1 H2]%andb_true_iff. apply date_leb_antisym; [done|].
    unfold last_month, Helper.get_last_completed_month, replace_day1 in *.
    destruct (d_month today =? 1); exact H1.
  - intros ->. unfold last_month, Helper.get_last_completed_month, replace_day1.
    destruct (d_month today =? 1); simpl; rewrite !date_leb_refl; done.
Qed.

(** The windows computed first, from the code alone, start where the
    helper-based ones do; only their end is the last day of the month
    instead of its first. *)
Lemma early_windows_agree today p :
  1 ≤ d_month today ≤ 12 →
  w_start (at_period (early_windows today) p) = w_start (at_period (windows today) p)
  ∧ replace_day1 (w_end (at_period (early_windows today) p))
    = w_end (at_period (windows today) p).
Proof.
  intros Hm. destruct today as [y m d]; simpl in Hm.
  assert (m = 1 ∨ m = 2 ∨ m = 3 ∨ m = 4 ∨ m = 5 ∨ m = 6 ∨ m = 7 ∨ m = 8
          ∨ m = 9 ∨ m = 10 ∨ m = 11 ∨ m = 12) as Hcases by lia.
  destruct p; repeat (destruct Hcases as [-> | Hcases]); try subst m;
    split; reflexivity.
Qed.

(** C3.  For the reference date 2025-07-11 the last completed month is
    2025-06-01; MTD runs from 2025-06-01 to the month marker 2025-06-01,
    which stands for the whole of June (it holds that marker and no other
    date); QTD and YTD run from 2025-04-01 to 2025-06-01.  In general the
    last completed month is the first day of the month before the one of the
    reference date, the year rolling back at January. *)
Theorem windows_of_2025_07_11 :
  last_month july_11 = mk_date 2025 6 1
  ∧ p_mtd (windows july_11) = mk_window (mk_date 2025 6 1) (mk_date 2025 6 1)
  ∧ p_qtd (windows july_11) = mk_window (mk_date 2025 4 1) (mk_date 2025 6 1)
  ∧ p_ytd (windows july_11) = mk_window (mk_date 2025 4 1) (mk_date 2025 6 1)
  ∧ (∀ d, in_window (p_mtd (windows july_11)) d = true ↔ d = mk_date 2025 6 1)
  ∧ (∀ y d, last_month (mk_date y 1 d) = mk_date (y - 1) 12 1)
  ∧ (∀ y d (m : positive),
       last_month (mk_date y (Z.pos m + 1) d) = mk_date y (Z.pos m) 1).
Proof.
  split_and!; try reflexivity.
  - intros d. apply (in_mtd_window july_11).
  - intros y d m. unfold last_month, Helper.get_last_completed_month.
    cbn [d_month d_year].
    destruct (Z.eqb_spec (Z.pos m + 1) 1); [lia|]. f_equal; lia.
Qed.

(** ** Validation *)

Lemma elem_of_missing_columns required columns c :
  c ∈ missing_columns required columns ↔ c ∈ required ∧ c ∉ columns.
Proof. unfold missing_columns. rewrite list_elem_of_filter. tauto. Qed.

Lemma missing_columns_nil required columns :
  missing_columns required columns = [] ↔ has_columns required columns.
Proof.
  unfold missing_columns, has_columns. induction required as [|c l IH].
  - split; [constructor | done].
  - rewrite filter_cons, Forall_cons. destruct (decide (c ∉ columns)) as [Hc|Hc].
    + split; [done | intros [? _]; done].
    + rewrite IH. apply dec_stable in Hc. tauto.
Qed.

(** The check on the inflow ledger names the columns that are absent, all
    of them and no other, and goes back to the caller. *)
Lemma validate_target_missing target_df :
  ¬ has_columns required_cols_target_df (normalize_columns (TargetDf.columns target_df)) →
  validate_target target_df
  = Returned (MissingColumns
      (missing_columns required_cols_target_df
         (normalize_columns (TargetDf.columns target_df)))).
Proof. intros H. unfold validate_target. by rewrite decide_False. Qed.

Example validate_target_missing_ex :
  validate_target target_no_columns = Returned (MissingColumns ["dm inflow actual"]).
Proof. reflexivity. Qed.

(** C5, at an expense ledger that lacks its "target" column only.  The
    check on the expense ledger stops with the whole list of required
    columns in its message, where the columns that are absent are
    ["target"]; the check on the inflow ledger, a few lines above, does name
    the absent columns. *)
Theorem expense_check_names_required_set :
  validate_expense expense_no_target
  = Stopped (MustContainColumns ["category"; "month"; "year"; "actual"; "target"])
  ∧ missing_columns required_cols
      (normalize_columns (ExpenseDf.columns expense_no_target)) = ["target"]
  ∧ (∀ today selected_project,
       render_exp_dashboard expense_no_target target_ok today selected_project
       = Stopped (MustContainColumns required_cols)).
Proof. split_and!; try reflexivity. Qed.

Lemma elem_of_find_invalid_months_in valid months v :
  v ∈ Helper.find_invalid_months_in valid months ↔ v ∈ months ∧ v ∉ valid.
Proof.
  unfold Helper.find_invalid_months_in.
  rewrite elem_of_remove_dups, list_elem_of_filter. tauto.
Qed.

Lemma find_invalid_months_in_nil valid months :
  Helper.find_invalid_months_in valid months = [] ↔ Forall (λ m, m ∈ valid) months.
Proof.
  rewrite Forall_forall. split.
  - intros H m Hm. destruct (decide (m ∈ valid)) as [|Hn]; [done|].
    assert (m ∈ Helper.find_invalid_months_in valid months) as Hin
      by (by apply elem_of_find_invalid_months_in).
    rewrite H in Hin. by apply elem_of_nil in Hin.
  - intros H. destruct (Helper.find_invalid_months_in valid months) as [|m l] eqn:E;
      [done|].
    assert (m ∈ Helper.find_invalid_months_in valid months) as Hin
      by (rewrite E; left).
    apply elem_of_find_invalid_months_in in Hin as [Hm Hn]. by apply H in Hm.
Qed.

(** A name that labels one column is a name of the header. *)
Lemma occurrences_elem_of name columns :
  occurrences name columns ≠ 0%nat → name ∈ columns.
Proof.
  unfold occurrences. intros H.
  destruct (filter (λ c, c = name) columns) as [|c l] eqn:E; [done|].
  assert (c ∈ filter (λ c, c = name) columns) as Hc by (rewrite E; left).
  by apply list_elem_of_filter in Hc as [-> Hc].
Qed.

(** Upper and lower case and blanks around a month do not matter. *)
Example clean_month_ex :
  clean_month <$> TargetDf.rows target_ok = ["May"; "May"; "May"]
  ∧ Helper.find_invalid_months ["May"; "May"; "May"] = []
  ∧ validate_target target_ok = Done inflow_rows_ok.
Proof. split_and!; reflexivity. Qed.

(** Title-casing looks at which characters are letters, not at their
    case. *)
Lemma is_cased_lower_char c : Text.is_cased (Text.lower_char c) = Text.is_cased c.
Proof. destruct c as [[] [] [] [] [] [] [] []]; reflexivity. Qed.

Lemma lower_char_lower_char c :
  Text.lower_char (Text.lower_char c) = Text.lower_char c.
Proof. destruct c as [[] [] [] [] [] [] [] []]; reflexivity. Qed.

Lemma upper_char_lower_char c :
  Text.upper_char (Text.lower_char c) = Text.upper_char c.
Proof. destruct c as [[] [] [] [] [] [] [] []]; reflexivity. Qed.

Lemma title_from_lower b s : Text.title_from b (Text.lower s) = Text.title_from b s.
Proof.
  revert b. induction s as [|c s IH]; intros b; [done|].
  cbn [Text.lower Text.title_from]. rewrite is_cased_lower_char, !IH.
  destruct (Text.is_cased c) eqn:Hc.
  - by rewrite lower_char_lower_char, upper_char_lower_char.
  - unfold Text.is_cased in Hc. apply orb_false_iff in Hc as [Hc _].
    unfold Text.lower_char. by rewrite Hc.
Qed.

Lemma title_from_letters s :
  letters s = true → Text.title_from true s = Text.lower s.
Proof.
  induction s as [|c s IH]; [done|]. cbn [letters Text.title_from Text.lower].
  intros [Hc Hs]%andb_true_iff. by rewrite Hc, IH.
Qed.

(** What the validation does whatever the canonical names are, as long as
    "Jan" and "Mar" are among them and "Febuary" is not. *)
Lemma find_invalid_months_in_example valid :
  "Jan" ∈ valid → "Mar" ∈ valid → "Febuary" ∉ valid →
  Helper.find_invalid_months_in valid ["Jan"; "Febuary"; "Mar"] = ["Febuary"].
Proof.
  intros HJ HM HF. unfold Helper.find_invalid_months_in.
  rewrite filter_cons, decide_False by (by intros H; apply H).
  rewrite filter_cons, decide_True by done.
  rewrite filter_cons, decide_False by (by intros H; apply H).
  reflexivity.
Qed.

(** C6.  Each month text is stripped and title-cased: the case in which it
    was written does not matter, and a word of letters comes out with its
    first letter in upper case and the others in lower case.  The cleaned
    texts are then compared with the twelve canonical names; the values
    reported are exactly the cleaned texts that are not canonical, each
    once, and the page stops with all of them in its message.  For the
    months "Jan", "Febuary", "Mar" the reported values are "Febuary" alone,
    as they are for " jan", "FEBUARY", "mAr ", "febuary". *)
Theorem invalid_months_collected :
  length Helper.canonical_months = 12%nat
  ∧ (∀ s, Text.title (Text.lower s) = Text.title s)
  ∧ (∀ c s, Text.is_cased c = true → letters s = true →
            Text.title (String c s) = String (Text.upper_char c) (Text.lower s))
  ∧ (∀ (target_df : TargetDf.table) v,
       v ∈ Helper.find_invalid_months (clean_month <$> TargetDf.rows target_df)
       ↔ (∃ r, r ∈ TargetDf.rows target_df
               ∧ v = Text.title (Text.strip (TargetDf.month r)))
         ∧ v ∉ Helper.canonical_months)
  ∧ (∀ (target_df : TargetDf.table),
       NoDup (Helper.find_invalid_months (clean_month <$> TargetDf.rows target_df)))
  ∧ (∀ (target_df : TargetDf.table),
       has_columns required_cols_target_df
         (normalize_columns (TargetDf.columns target_df)) →
       occurrences "month" (normalize_columns (TargetDf.columns target_df)) = 1%nat →
       "year" ∈ normalize_columns (TargetDf.columns target_df) →
       Helper.find_invalid_months (clean_month <$> TargetDf.rows target_df) ≠ [] →
       validate_target target_df
       = Stopped (InvalidMonths
           (Helper.find_invalid_months (clean_month <$> TargetDf.rows target_df))))
  ∧ (∀ valid, "Jan" ∈ valid → "Mar" ∈ valid → "Febuary" ∉ valid →
              Helper.find_invalid_months_in valid ["Jan"; "Febuary"; "Mar"]
              = ["Febuary"])
  ∧ clean_month <$> TargetDf.rows target_typo = ["Jan"; "Febuary"; "Mar"]
  ∧ Helper.find_invalid_months ["Jan"; "Febuary"; "Mar"] = ["Febuary"]
  ∧ validate_target target_typo = Stopped (InvalidMonths ["Febuary"])
  ∧ TargetDf.month <$> TargetDf.rows target_raw_months
    = [" jan"; "FEBUARY"; "mAr "; "febuary"]
  ∧ clean_month <$> TargetDf.rows target_raw_months
    = ["Jan"; "Febuary"; "Mar"; "Febuary"]
  ∧ validate_target target_raw_months = Stopped (InvalidMonths ["Febuary"]).
Proof.
  split_and!; try reflexivity.
  - intros s. apply title_from_lower.
  - intros c s Hc Hs. unfold Text.title. cbn [Text.title_from].
    by rewrite Hc, title_from_letters.
  - intros target_df v. unfold Helper.find_invalid_months.
    rewrite elem_of_find_invalid_months_in, list_elem_of_fmap.
    unfold clean_month.
    split; intros [(r & ? & ?) ?]; (split; [by exists r | done]).
  - intros target_df. apply NoDup_remove_dups.
  - intros target_df Hcols Hm Hy Hinv. unfold validate_target.
    rewrite decide_True by done.
    rewrite decide_True by (split; [by apply occurrences_elem_of; rewrite Hm|done]).
    rewrite decide_True by done. by rewrite decide_False.
  - apply find_invalid_months_in_example.
Qed.

(** What the outcome of a run tells about who ended it. *)
Definition back_at_caller {A} (o : outcome A) : Prop :=
  match o with Returned _ => True | _ => False end.

Definition halted_by_page {A} (o : outcome A) : Prop :=
  match o with Stopped _ => True | _ => False end.

Lemma render_target_failure expense_df target_df today selected_project :
  (∀ rows, validate_target target_df ≠ Done rows) →
  render_exp_dashboard expense_df target_df today selected_project
  = match validate_target target_df with
    | Done _ => Raised
    | Returned m => Returned m
    | Stopped m => Stopped m
    | Raised => Raised
    end.
Proof.
  intros H. unfold render_exp_dashboard.
  destruct (validate_target target_df) as [rows| | |]; try reflexivity.
  by destruct (H rows).
Qed.

(** C4, as stated, fails on the inflow ledger with the month "Febuary":
    the check itself halts the run with [st.stop()], the caller is not given
    the failure to decide on. *)
Lemma invalid_month_halts_the_run :
  validate_target target_typo = Stopped (InvalidMonths ["Febuary"])
  ∧ (∀ expense_df today selected_project,
       render_exp_dashboard expense_df target_typo today selected_project
       = Stopped (InvalidMonths ["Febuary"]))
  ∧ ¬ back_at_caller (validate_target target_typo)
  ∧ halted_by_page (validate_target target_typo).
Proof.
  split_and!; try reflexivity; try exact I. intros H; exact H.
Qed.

Lemma month_number_range name m : month_number name = Some m → 1 ≤ m ≤ 12.
Proof.
  unfold month_number. destruct (list_find _ _) as [[i p]|] eqn:E; [|done].
  simpl. intros [= <-]. apply list_find_Some in E as (Hi & _ & _).
  assert (Forall (λ p, 1 ≤ p.2 ≤ 12) month_names) as Hall.
  { apply (bool_decide_unpack _). vm_compute. exact I. }
  rewrite Forall_forall in Hall. apply Hall. apply list_elem_of_lookup. eauto.
Qed.

(** The canonical names are month names that [pd.to_datetime] reads. *)
Lemma canonical_month_number name :
  name ∈ Helper.canonical_months → ∃ m, month_number name = Some m ∧ 1 ≤ m ≤ 12.
Proof.
  intros Hin.
  assert (Forall (λ s, is_Some (month_number s)) Helper.canonical_months) as Hall.
  { apply (bool_decide_unpack _). vm_compute. exact I. }
  rewrite Forall_forall in Hall. destruct (Hall name Hin) as [m Hm].
  exists m. split; [done|]. by apply (month_number_range name).
Qed.

(** The first day of a month of the years 1678 to 2261 is a Timestamp; no
    day of a year before 1677 or after 2262 is one. *)
Lemma timestamp_ok_years y m : 1678 ≤ y ≤ 2261 → timestamp_ok (mk_date y m 1) = true.
Proof.
  intros Hy. unfold timestamp_ok, date_leb. cbn [d_year d_month d_day].
  rewrite (proj2 (Z.ltb_lt 1677 y)), (proj2 (Z.ltb_lt y 2262)) by lia.
  reflexivity.
Qed.

Lemma timestamp_ok_far_years y m :
  y ≤ 1676 ∨ 2263 ≤ y → timestamp_ok (mk_date y m 1) = false.
Proof.
  intros Hy. unfold timestamp_ok, date_leb. cbn [d_year d_month d_day].
  destruct Hy.
  - rewrite (proj2 (Z.ltb_ge 1677 y)), (proj2 (Z.eqb_neq 1677 y)) by lia.
    reflexivity.
  - rewrite (proj2 (Z.ltb_ge y 2262)), (proj2 (Z.eqb_neq y 2262)) by lia.
    apply andb_false_r.
Qed.

Lemma clean_month_canonical target_df r :
  Helper.find_invalid_months (clean_month <$> TargetDf.rows target_df) = [] →
  r ∈ TargetDf.rows target_df →
  ∃ m, month_number (clean_month r) = Some m ∧ 1 ≤ m ≤ 12.
Proof.
  intros Hinv Hr. apply canonical_month_number.
  apply find_invalid_months_in_nil in Hinv. rewrite Forall_forall in Hinv.
  apply Hinv. by apply list_elem_of_fmap_2.
Qed.

(** With canonical months and years from 1678 to 2261 every row has its
    date. *)
Lemma monthstart_of_sound_years target_df :
  Helper.find_invalid_months (clean_month <$> TargetDf.rows target_df) = [] →
  (∀ r, r ∈ TargetDf.rows target_df → 1678 ≤ TargetDf.year r ≤ 2261) →
  is_Some (mapM with_monthstart (TargetDf.rows target_df)).
Proof.
  intros Hinv Hyears. apply mapM_is_Some_2, Forall_forall. intros r Hr.
  destruct (clean_month_canonical _ _ Hinv Hr) as (m & Hm & _).
  unfold compose, with_monthstart, to_datetime_month_year. rewrite Hm. simpl.
  rewrite timestamp_ok_years by (by apply Hyears). simpl. eauto.
Qed.

(** With canonical months, a row with a four-digit year before 1677 or
    after 2262 has no date. *)
Lemma monthstart_of_far_year target_df r :
  Helper.find_invalid_months (clean_month <$> TargetDf.rows target_df) = [] →
  r ∈ TargetDf.rows target_df →
  TargetDf.year r ≤ 1676 ∨ 2263 ≤ TargetDf.year r →
  mapM with_monthstart (TargetDf.rows target_df) = None.
Proof.
  intros Hinv Hr Hy.
  destruct (mapM with_monthstart (TargetDf.rows target_df)) as [k|] eqn:E; [|done].
  assert (is_Some (mapM with_monthstart (TargetDf.rows target_df))) as Hs
    by (rewrite E; eauto).
  apply mapM_is_Some_1 in Hs. rewrite Forall_forall in Hs.
  destruct (Hs r Hr) as [x Hx].
  destruct (clean_month_canonical _ _ Hinv Hr) as (m & Hm & _).
  unfold with_monthstart, to_datetime_month_year in Hx. rewrite Hm in Hx.
  simpl in Hx. by rewrite timestamp_ok_far_years in Hx.
Qed.

(** C4, amended.  A failed check shows one message and ends the page, and
    no figure is computed.  When required inflow columns are absent the page
    returns to its caller.  In five cases it halts the run itself: when the
    month or the year column is absent, when month values are invalid, when
    the building of [monthstart] raises (as it does when the header has the
    year column twice), when a month and year give no date (as with a
    four-digit year before 1677 or after 2262), and when required expense
    columns are absent (here for a sound inflow ledger, its years from 1678
    to 2261).  A header with the month column twice makes the clean-up of
    the months raise an exception, before any of the messages about months
    and years. *)
Theorem failed_validation_outcome
    (expense_df : ExpenseDf.table) (target_df : TargetDf.table)
    (today : date) (selected_project : string) :
  let columns := normalize_columns (TargetDf.columns target_df) in
  let invalid_months :=
    Helper.find_invalid_months (clean_month <$> TargetDf.rows target_df) in
  let run := render_exp_dashboard expense_df target_df today selected_project in
  (¬ has_columns required_cols_target_df columns →
   run = Returned (MissingColumns (missing_columns required_cols_target_df columns)))
  ∧ (has_columns required_cols_target_df columns →
     (¬ ("month" ∈ columns ∧ "year" ∈ columns) → run = Stopped NoMonthYearColumns)
     ∧ ("month" ∈ columns ∧ "year" ∈ columns →
        (occurrences "month" columns ≠ 1%nat → run = Raised)
        ∧ (occurrences "month" columns = 1%nat →
           (invalid_months ≠ [] → run = Stopped (InvalidMonths invalid_months))
           ∧ (invalid_months = [] →
              (occurrences "year" columns ≠ 1%nat → run = Stopped MonthstartError)
              ∧ (occurrences "year" columns = 1%nat →
                 ((∃ r, r ∈ TargetDf.rows target_df
                        ∧ (1000 ≤ TargetDf.year r ≤ 1676
                           ∨ 2263 ≤ TargetDf.year r ≤ 9999)) →
                  run = Stopped InvalidMonthYear)
                 ∧ ((∀ r, r ∈ TargetDf.rows target_df →
                          1678 ≤ TargetDf.year r ≤ 2261) →
                    ¬ has_columns required_cols
                        (normalize_columns (ExpenseDf.columns expense_df)) →
                    run = Stopped (MustContainColumns required_cols))))))).
Proof.
  intros columns invalid_months run. subst columns invalid_months run.
  split.
  { intros H. rewrite render_target_failure;
      rewrite (validate_target_missing _ H); done. }
  intros Hcols. split.
  { intros H. rewrite render_target_failure; unfold validate_target;
      rewrite (decide_True _ _ Hcols), (decide_False _ _ H); done. }
  intros Hmy. split.
  { intros H. rewrite render_target_failure; unfold validate_target;
      rewrite (decide_True _ _ Hcols), (decide_True _ _ Hmy), (decide_False _ _ H);
      done. }
  intros Hm1. split.
  { intros H. rewrite render_target_failure; unfold validate_target;
      rewrite (decide_True _ _ Hcols), (decide_True _ _ Hmy), (decide_True _ _ Hm1),
        (decide_False _ _ H); done. }
  intros Hinv. split.
  { intros H. rewrite render_target_failure; unfold validate_target;
      rewrite (decide_True _ _ Hcols), (decide_True _ _ Hmy), (decide_True _ _ Hm1),
        (decide_True _ _ Hinv), (decide_False _ _ H); done. }
  intros Hy1. split.
  - intros (r & Hr & Hfar).
    assert (mapM with_monthstart (TargetDf.rows target_df) = None) as Hmap
      by (apply (monthstart_of_far_year _ r); [done..|lia]).
    rewrite render_target_failure; unfold validate_target;
      rewrite (decide_True _ _ Hcols), (decide_True _ _ Hmy), (decide_True _ _ Hm1),
        (decide_True _ _ Hinv), (decide_True _ _ Hy1), Hmap; done.
  - intros Hall Hexp.
    destruct (monthstart_of_sound_years _ Hinv Hall) as [k Hk].
    unfold render_exp_dashboard, validate_target.
    rewrite (decide_True _ _ Hcols), (decide_True _ _ Hmy), (decide_True _ _ Hm1),
      (decide_True _ _ Hinv), (decide_True _ _ Hy1), Hk.
    simpl. unfold validate_expense. by rewrite (decide_False _ _ Hexp).
Qed.

(** Each way a check can fail, on the sample ledgers. *)
Example failed_validation_samples :
  render_exp_dashboard expense_twice target_no_columns june_11 all_projects
  = Returned (MissingColumns ["dm inflow actual"])
  ∧ render_exp_dashboard expense_twice target_no_year june_11 all_projects
    = Stopped NoMonthYearColumns
  ∧ render_exp_dashboard expense_twice target_typo june_11 all_projects
    = Stopped (InvalidMonths ["Febuary"])
  ∧ render_exp_dashboard expense_twice target_two_years june_11 all_projects
    = Stopped MonthstartError
  ∧ render_exp_dashboard expense_twice target_far_year june_11 all_projects
    = Stopped InvalidMonthYear
  ∧ render_exp_dashboard expense_twice target_early_year june_11 all_projects
    = Stopped InvalidMonthYear
  ∧ render_exp_dashboard expense_no_target target_ok june_11 all_projects
    = Stopped (MustContainColumns required_cols)
  ∧ render_exp_dashboard expense_twice target_two_months june_11 all_projects
    = Raised.
Proof. split_and!; reflexivity. Qed.

(** ** Amounts *)

(** Equal amounts, by computation. *)
Ltac amounts := repeat (f_equal; try (apply Qc_is_canon; reflexivity)).

Lemma total_nil : total [] = 0%Qc.
Proof. reflexivity. Qed.

Lemma total_cons x l : total (x :: l) = (x + total l)%Qc.
Proof. reflexivity. Qed.

Lemma total_Permutation l1 l2 : l1 ≡ₚ l2 → total l1 = total l2.
Proof.
  induction 1 as [|x l l' _ IH|x y l|l l' l'' _ IH1 _ IH2].
  - done.
  - by rewrite !total_cons, IH.
  - rewrite !total_cons. ring.
  - congruence.
Qed.

Lemma total_minus {A} (f g : A → Qc) l :
  total ((λ x, f x - g x)%Qc <$> l) = (total (f <$> l) - total (g <$> l))%Qc.
Proof.
  induction l as [|x l IH]; [rewrite !fmap_nil, total_nil; ring|].
  rewrite !fmap_cons, !total_cons, IH. ring.
Qed.

(** ** The total of a row *)

Lemma reshape_rental : reshape (ExpenseDf.rows expense_rental) = Some rental_frame.
Proof. vm_compute. amounts. Qed.

Lemma filter_label_absent (c : string) (cells : list (string * option Qc)) :
  c ∉ cells.*1 → filter (λ cell, cell.1 = c) cells = [].
Proof.
  induction cells as [|[c' v] l IH]; [done|].
  rewrite fmap_cons, not_elem_of_cons. simpl. intros [Hne Hc].
  rewrite filter_cons. simpl. rewrite decide_False by done.
  by apply IH.
Qed.

Lemma row_select_skip c v cells cols d y :
  c ∉ cols →
  row_select (mk_wide_row d y ((c, v) :: cells)) cols
  = row_select (mk_wide_row d y cells) cols.
Proof.
  unfold row_select; simpl. induction cols as [|col l IH]; [done|].
  rewrite not_elem_of_cons. intros [Hne Hc].
  rewrite !bind_cons, filter_cons. simpl.
  rewrite decide_False by done. f_equal. by apply IH.
Qed.

Lemma row_select_own_labels (P : string → bool) d y cells :
  NoDup cells.*1 →
  row_select (mk_wide_row d y cells) (filter (λ c, P c) cells.*1)
  = snd <$> filter (λ cell, P cell.1) cells.
Proof.
  induction cells as [|[c v] l IH]; [done|].
  rewrite fmap_cons. simpl. intros [Hc Hl]%NoDup_cons. rewrite !filter_cons. simpl.
  assert (c ∉ filter (λ c0, P c0) l.*1) as Hskip.
  { rewrite list_elem_of_filter. tauto. }
  destruct (decide (P c)) as [HP|HP].
  - unfold row_select at 1. rewrite bind_cons. simpl. rewrite filter_cons. simpl.
    rewrite decide_True by done. rewrite (filter_label_absent c l Hc). simpl.
    f_equal. etrans; [|exact (IH Hl)].
    apply (row_select_skip c v l _ d y Hskip).
  - rewrite (row_select_skip c v l _ d y Hskip). by apply IH.
Qed.

Lemma expense_cols_value_columns df :
  expense_cols df = filter (λ col, is_expense_col col) (value_columns df).
Proof. reflexivity. Qed.

(** C7, as stated, fails on a ledger with the categories "Rent" and "Rental
    Income": the row total is 150, the actual of the allow-listed category
    "rent" (100) plus that of "rental income" (50), which is not on the
    list. *)
Lemma rental_income_counted :
  reshape (ExpenseDf.rows expense_rental) = Some rental_frame
  ∧ wide_rows rental_frame = [rental_row]
  ∧ expense_cols rental_frame = ["rent_actual"; "rental income_actual"]
  ∧ total_actual_expense rental_frame rental_row = Qc_of_Z 150
  ∧ allow_listed_total rental_row = Qc_of_Z 100
  ∧ total_actual_expense rental_frame rental_row ≠ allow_listed_total rental_row.
Proof.
  split_and!; try reflexivity.
  - apply reshape_rental.
  - apply Qc_is_canon; reflexivity.
  - apply Qc_is_canon; reflexivity.
  - intros H. apply (f_equal this) in H. vm_compute in H. discriminate H.
Qed.

(** C7, amended.  In a frame with distinct labels, the total of a row is
    the sum of the cells (empty ones counting for nothing) of exactly the
    columns whose label contains one of the allow-listed names and contains
    "actual"; a column whose label contains none of the names stays out of
    the total. *)
Theorem total_actual_expense_by_substring (df : wide_frame) (r : wide_row) :
  NoDup (value_columns df) →
  (wr_cells r).*1 = value_columns df →
  total_actual_expense df r
  = series_total (snd <$> filter (λ cell, is_expense_col cell.1) (wr_cells r)).
Proof.
  intros Hnd Hlabels. unfold total_actual_expense.
  rewrite expense_cols_value_columns, <- Hlabels. destruct r as [d y cells]; simpl.
  f_equal. apply row_select_own_labels. simpl in Hlabels. by rewrite Hlabels.
Qed.

Lemma total_actual_expense_by_substring_witness :
  total_actual_expense rental_frame rental_row
  = series_total (snd <$> filter (λ cell, is_expense_col cell.1) (wr_cells rental_row)).
Proof.
  apply total_actual_expense_by_substring.
  - apply (bool_decide_unpack _). vm_compute. exact I.
  - reflexivity.
Defined.

(** ** The pivot *)

Lemma reshape_twice : reshape (ExpenseDf.rows expense_twice) = Some twice_frame.
Proof. vm_compute. amounts. Qed.

Lemma omap_fmap_compose {A B C} (g : A → B) (f : B → option C) (l : list A) :
  omap f (g <$> l) = omap (λ x, f (g x)) l.
Proof.
  induction l as [|x l IH]; [done|].
  csimpl. by rewrite IH.
Qed.

Lemma omap_none {A B} (f : A → option B) (l : list A) :
  (∀ x, f x = None) → omap f l = [].
Proof. intros H. induction l as [|x l IH]; [done|]. csimpl. by rewrite H. Qed.

Lemma omap_ext_all {A B} (f g : A → option B) (l : list A) :
  (∀ x, f x = g x) → omap f l = omap g l.
Proof. intros H. induction l as [|x l IH]; [done|]. csimpl. by rewrite H, IH. Qed.

(** The group of a month and a category holds the values of the records of
    that month and category, in the field that the type names. *)
Lemma group_values_actual rows m y cat :
  group_values (melt rows) (m, y) (cat, "actual")
  = record_values ExpenseDf.actual rows m y cat.
Proof.
  unfold group_values, melt, record_values.
  rewrite omap_app, !omap_fmap_compose. simpl.
  rewrite (omap_none (λ x, if decide (_ ∧ (ExpenseDf.category x, "target") = _) then _ else _)).
  2:{ intros x. rewrite decide_False; [done|]. intros [_ H]. discriminate H. }
  rewrite app_nil_r. apply omap_ext_all. intros x.
  destruct (decide ((ExpenseDf.month x, ExpenseDf.year x) = (m, y)
                    ∧ ExpenseDf.category x = cat)) as [[H1 H2]|Hn].
  - rewrite decide_True; [done|]. by rewrite H1, H2.
  - rewrite decide_False; [done|]. intros [H1 H2]. apply Hn. split; [done|].
    congruence.
Qed.

Lemma group_values_target rows m y cat :
  group_values (melt rows) (m, y) (cat, "target")
  = record_values ExpenseDf.target rows m y cat.
Proof.
  unfold group_values, melt, record_values.
  rewrite omap_app, !omap_fmap_compose. simpl.
  rewrite (omap_none (λ x, if decide (_ ∧ (ExpenseDf.category x, "actual") = _) then _ else _)).
  2:{ intros x. rewrite decide_False; [done|]. intros [_ H]. discriminate H. }
  rewrite app_nil_l. apply omap_ext_all. intros x.
  destruct (decide ((ExpenseDf.month x, ExpenseDf.year x) = (m, y)
                    ∧ ExpenseDf.category x = cat)) as [[H1 H2]|Hn].
  - rewrite decide_True; [done|]. by rewrite H1, H2.
  - rewrite decide_False; [done|]. intros [H1 H2]. apply Hn. split; [done|].
    congruence.
Qed.

(** A group with a number in it has its row and its column in the pivot. *)
Lemma group_values_live ml ix col :
  group_values ml ix col ≠ [] →
  ix ∈ pivot_index ml ∧ col ∈ pivot_columns ml.
Proof.
  intros Hne.
  assert (∃ x, x ∈ ml ∧ (m_month x, m_year x) = ix
               ∧ (m_category x, m_type x) = col ∧ is_Some (m_value x))
    as (x & Hx & Hix & Hcol & Hv).
  { destruct (group_values ml ix col) as [|v vs] eqn:E; [done|].
    assert (v ∈ group_values ml ix col) as Hin by (rewrite E; left).
    apply list_elem_of_omap in Hin as (x & Hx & Hfx).
    exists x. destruct (decide _) as [[? ?]|]; [|done]. eauto. }
  assert (x ∈ live ml) as Hlive by (by apply list_elem_of_filter).
  unfold pivot_index, pivot_columns.
  rewrite !merge_sort_Permutation, !elem_of_remove_dups, !list_elem_of_fmap.
  split; exists x; done.
Qed.

Lemma cell_of_labelled {A} (f : A → string) (g : A → option Qc) cols col d y :
  NoDup (f <$> cols) → col ∈ cols →
  cell (mk_wide_row d y ((λ c, (f c, g c)) <$> cols)) (f col) = g col.
Proof.
  unfold cell; simpl. induction cols as [|c l IH]; intros Hnd Hin.
  - by apply elem_of_nil in Hin.
  - rewrite fmap_cons in Hnd. apply NoDup_cons in Hnd as [Hc Hl].
    rewrite fmap_cons. simpl. apply elem_of_cons in Hin as [->|Hin].
    + by rewrite decide_True.
    + rewrite decide_False.
      2:{ simpl. intros Heq. apply Hc. rewrite Heq. by apply list_elem_of_fmap_2. }
      specialize (IH Hl Hin).
      destruct (list_find _ _) as [[i hit]|]; simpl in *; done.
Qed.

Lemma to_datetime_ymd_Some y m d : to_datetime_ymd y m = Some d → d = mk_date y m 1.
Proof. unfold to_datetime_ymd. destruct (_ && _); congruence. Qed.

(** The cell of the reshaped frame for a month and a (category, type). *)
Lemma reshape_cell rows df m y col :
  reshape rows = Some df →
  NoDup (value_columns df) →
  group_values (melt rows) (m, y) col ≠ [] →
  ∃ r, r ∈ wide_rows df ∧ wr_month r = mk_date y m 1 ∧ wr_year r = y
       ∧ cell r (flat_label col) = mean (group_values (melt rows) (m, y) col).
Proof.
  intros Hre Hnd Hne. apply group_values_live in Hne as [Hix Hcol].
  unfold reshape in Hre.
  destruct (mapM _ (pivot_index (melt rows))) as [wrows|] eqn:Hmap; [|done].
  simpl in Hre. injection Hre as <-. simpl in *.
  apply mapM_Some_1 in Hmap.
  apply list_elem_of_lookup in Hix as [i Hi].
  destruct (Forall2_lookup_l _ _ _ _ _ Hmap Hi) as (r & Hr & Hf).
  exists r. simpl in Hf.
  destruct (to_datetime_ymd y m) as [d|] eqn:Hd; [|done]. simpl in Hf.
  injection Hf as <-. apply to_datetime_ymd_Some in Hd as ->.
  split_and!; try done.
  - apply list_elem_of_lookup. eauto.
  - by apply (cell_of_labelled flat_label).
Qed.

Lemma mean_nonempty l :
  l ≠ [] → mean l = Some (total l / Qc_of_Z (Z.of_nat (length l)))%Qc.
Proof. by destruct l. Qed.

(** C10.  When the records of a month, year and category hold numbers in
    their actual (or target) field, the reshaped frame has a row for that
    month whose cell for the category is the arithmetic mean of these
    numbers: their total divided by their count, not their total. *)
Theorem pivot_cell_is_mean (rows : list ExpenseDf.row) (df : wide_frame)
    (m y : Z) (cat : string) :
  reshape rows = Some df →
  NoDup (value_columns df) →
  (record_values ExpenseDf.actual rows m y cat ≠ [] →
   ∃ r, r ∈ wide_rows df ∧ wr_month r = mk_date y m 1 ∧ wr_year r = y
        ∧ cell r (flat_label (cat, "actual"))
          = Some (total (record_values ExpenseDf.actual rows m y cat)
                  / Qc_of_Z (Z.of_nat
                      (length (record_values ExpenseDf.actual rows m y cat))))%Qc)
  ∧ (record_values ExpenseDf.target rows m y cat ≠ [] →
     ∃ r, r ∈ wide_rows df ∧ wr_month r = mk_date y m 1 ∧ wr_year r = y
          ∧ cell r (flat_label (cat, "target"))
            = Some (total (record_values ExpenseDf.target rows m y cat)
                    / Qc_of_Z (Z.of_nat
                        (length (record_values ExpenseDf.target rows m y cat))))%Qc).
Proof.
  intros Hre Hnd. split; intros Hne.
  - rewrite <- group_values_actual in *.
    destruct (reshape_cell rows df m y (cat, "actual") Hre Hnd Hne)
      as (r & Hr & Hm & Hy & Hcell).
    exists r. by rewrite Hcell, mean_nonempty.
  - rewrite <- group_values_target in *.
    destruct (reshape_cell rows df m y (cat, "target") Hre Hnd Hne)
      as (r & Hr & Hm & Hy & Hcell).
    exists r. by rewrite Hcell, mean_nonempty.
Qed.

Lemma pivot_cell_is_mean_witness :
  ∃ r, r ∈ wide_rows twice_frame ∧ wr_month r = mk_date 2025 5 1 ∧ wr_year r = 2025
       ∧ cell r "rent_actual"
         = Some (total [Qc_of_Z 100; Qc_of_Z 200] / Qc_of_Z 2)%Qc.
Proof.
  refine (proj1 (pivot_cell_is_mean (ExpenseDf.rows expense_twice) twice_frame
                   5 2025 "Rent" reshape_twice _) _).
  - apply (bool_decide_unpack _). vm_compute. exact I.
  - discriminate.
Defined.

(** Two rent records of 100 and 200 for May 2025 give a cell of 150, where
    their sum is 300. *)
Example pivot_mean_not_sum :
  (r ← wide_rows twice_frame !! 1%nat; cell r "rent_actual") = amount 150
  ∧ total (record_values ExpenseDf.actual (ExpenseDf.rows expense_twice) 5 2025 "Rent")
    = Qc_of_Z 300
  ∧ Qc_of_Z 150 ≠ Qc_of_Z 300.
Proof.
  split_and!.
  - reflexivity.
  - apply Qc_is_canon; reflexivity.
  - intros H. discriminate H.
Qed.

(** ** The labels of a reshaped frame *)

Lemma last_char_app s t c : last_char t = Some c → last_char (s +:+ t) = Some c.
Proof. intros H. induction s as [|a s IH]; simpl; [done|]. by rewrite IH. Qed.

Lemma last_char_lower s : last_char (Text.lower s) = Text.lower_char <$> last_char s.
Proof.
  induction s as [|a s IH]; simpl; [done|]. rewrite IH.
  by destruct (last_char s).
Qed.

Lemma last_char_lstrip s c :
  last_char s = Some c → Text.is_space c = false → last_char (Text.lstrip s) = Some c.
Proof.
  intros Hs Hc. induction s as [|a s IH]; simpl in *; [done|].
  destruct (Text.is_space a) eqn:Ha; [|done].
  destruct (last_char s) as [d|]; [by apply IH|].
  injection Hs as ->. congruence.
Qed.

Lemma rstrip_last s c :
  last_char s = Some c → Text.is_space c = false → Text.rstrip s = s.
Proof.
  intros Hs Hc. induction s as [|a s IH]; simpl in *; [done|].
  destruct (last_char s) as [d|] eqn:Hd.
  - rewrite IH by done. destruct s; [done|]. done.
  - destruct s as [|b s]; simpl in *.
    + injection Hs as ->. by rewrite Hc.
    + by destruct (last_char s).
Qed.

Lemma last_char_flat_label c t a :
  last_char t = Some a → Text.is_space a = false →
  Text.is_space (Text.lower_char a) = false →
  last_char (flat_label (c, t))
  = Some (Text.lower_char (Text.lower_char a)).
Proof.
  intros Ht Ha Ha'. unfold flat_label, Text.strip. simpl.
  assert (last_char (Text.lower c +:+ "_" +:+ Text.lower t)
          = Some (Text.lower_char a)) as Hlast.
  { apply last_char_app, last_char_app. by rewrite last_char_lower, Ht. }
  rewrite last_char_lower, (rstrip_last _ (Text.lower_char a)).
  - by rewrite (last_char_lstrip _ _ Hlast Ha').
  - by apply last_char_lstrip.
  - done.
Qed.

(** The value columns of a reshaped frame are none of "month", "year" and
    "total_actual_expense": their labels end in "_actual" or "_target". *)
Lemma reshape_final_columns rows df :
  reshape rows = Some df → NoDup (value_columns df) → NoDup (final_columns df).
Proof.
  intros Hre Hnd. unfold reshape in Hre.
  destruct (mapM _ _) as [wrows|]; [|done]. simpl in Hre. injection Hre as <-.
  simpl in *.
  assert (∀ l, l ∈ flat_label <$> pivot_columns (melt rows) →
               last_char l = Some "l"%char ∨ last_char l = Some "t"%char) as Hlast.
  { intros l (col & -> & Hcol)%list_elem_of_fmap. unfold pivot_columns in Hcol.
    rewrite merge_sort_Permutation, elem_of_remove_dups in Hcol.
    apply list_elem_of_fmap in Hcol as (x & -> & Hx).
    apply list_elem_of_filter in Hx as [_ Hx]. unfold melt in Hx.
    apply elem_of_app in Hx as [Hx|Hx];
      apply list_elem_of_fmap in Hx as (e & -> & _); simpl.
    - left. by apply (last_char_flat_label _ "actual" "l"%char).
    - right. by apply (last_char_flat_label _ "target" "t"%char). }
  unfold final_columns, df_columns. simpl.
  change (NoDup (app ["month"; "year"]
                   (app (flat_label <$> pivot_columns (melt rows))
                        ["total_actual_expense"]))).
  apply NoDup_app. split_and!.
  - apply (bool_decide_unpack _). vm_compute. exact I.
  - intros l Hl Hin. apply elem_of_app in Hin as [Hin|Hin].
    + destruct (Hlast l Hin) as [H|H];
        repeat (apply elem_of_cons in Hl as [->|Hl]; [discriminate H|]);
        by apply elem_of_nil in Hl.
    + apply list_elem_of_singleton in Hin as ->.
      repeat (apply elem_of_cons in Hl as [Hl|Hl]; [discriminate Hl|]).
      by apply elem_of_nil in Hl.
  - apply NoDup_app. split_and!; [done| |apply NoDup_singleton].
    intros l Hl Hin. apply list_elem_of_singleton in Hin as ->.
    destruct (Hlast _ Hl) as [H|H]; discriminate H.
Qed.

(** ** The expense figures of a window *)

Lemma count_label_one (c : string) (l : list string) :
  NoDup l → c ∈ l → length (filter (λ x, x = c) l) = 1%nat.
Proof.
  induction l as [|x l IH]; intros Hnd Hin.
  - by apply elem_of_nil in Hin.
  - apply NoDup_cons in Hnd as [Hx Hl]. rewrite filter_cons.
    destruct (decide (x = c)) as [->|Hne].
    + simpl. f_equal. apply length_zero_iff_nil.
      destruct (filter (λ x, x = c) l) as [|y k] eqn:E; [done|].
      assert (y ∈ filter (λ x, x = c) l) as Hy by (rewrite E; left).
      apply list_elem_of_filter in Hy as [-> Hy]. done.
    + apply IH; [done|]. apply elem_of_cons in Hin as [->|]; done.
Qed.

Lemma column_sum_distinct df filtered col :
  NoDup (final_columns df) → col ∈ final_columns df →
  column_sum df filtered col = Some (series_total ((λ r, cell r col) <$> filtered)).
Proof.
  intros Hnd Hin. unfold column_sum.
  by rewrite decide_True by (by apply count_label_one).
Qed.

(** Whether a column can be summed does not depend on the rows kept. *)
Lemma column_sum_is_Some df f1 f2 col :
  is_Some (column_sum df f1 col) → is_Some (column_sum df f2 col).
Proof. unfold column_sum. destruct (decide _); [eauto | by intros [? ?]]. Qed.

Lemma expense_cols_in_final df col : col ∈ expense_cols df → col ∈ final_columns df.
Proof.
  unfold expense_cols, final_columns. rewrite list_elem_of_filter, elem_of_app.
  tauto.
Qed.

(** With distinct labels the loop runs to its end. *)
Lemma expense_loop_distinct df filtered cols result :
  NoDup (final_columns df) → Forall (λ c, c ∈ final_columns df) cols →
  is_Some (expense_loop df filtered cols result).
Proof.
  intros Hnd Hcols. revert result.
  induction Hcols as [|col cols Hcol _ IH]; intros result; simpl; [eauto|].
  destruct (Text.contains "actual" col); [|apply IH].
  destruct (decide _) as [Ht|]; [|apply IH].
  rewrite !column_sum_distinct by done. simpl. apply IH.
Qed.

(** The loop does as well, and fills the same keys, on any two selections of
    rows. *)
Lemma expense_loop_keys df f1 f2 cols r1 r2 d1 :
  dom r1 = dom r2 →
  expense_loop df f1 cols r1 = Some d1 →
  ∃ d2, expense_loop df f2 cols r2 = Some d2 ∧ dom d1 = dom d2.
Proof.
  revert r1 r2. induction cols as [|col cols IH]; intros r1 r2 Hdom; simpl.
  - intros [= <-]. eauto.
  - destruct (Text.contains "actual" col); [|by apply IH].
    destruct (decide _) as [Ht|]; [|by apply IH].
    destruct (column_sum df f1 col) as [a1|] eqn:Ha1; [|done].
    destruct (column_sum df f1 (_ +:+ _)) as [t1|] eqn:Ht1; [|done].
    destruct (column_sum_is_Some df f1 f2 col) as [a2 ->]; [by rewrite Ha1|].
    destruct (column_sum_is_Some df f1 f2 (Text.remove_all "_actual" col +:+ "_target"))
      as [t2 ->]; [by rewrite Ht1|].
    simpl. apply IH. rewrite !dom_insert_L. by rewrite Hdom.
Qed.

(** A property of the figures made from two column sums holds of every
    entry of the dictionary. *)
Lemma expense_loop_entries (P : figure → Prop) df filtered cols result d :
  (∀ c1 c2 a t, column_sum df filtered c1 = Some a →
                column_sum df filtered c2 = Some t →
                P (mk_figure t a (a - t)%Qc)) →
  map_Forall (λ _, P) result →
  expense_loop df filtered cols result = Some d →
  map_Forall (λ _, P) d.
Proof.
  intros HP. revert result. induction cols as [|col cols IH]; intros result Hres; simpl.
  - by intros [= <-].
  - destruct (Text.contains "actual" col); [|by apply IH].
    destruct (decide _) as [Ht|]; [|by apply IH].
    destruct (column_sum df filtered col) as [a|] eqn:Ha; [|done].
    destruct (column_sum df filtered (_ +:+ _)) as [t|] eqn:Htg; [|done].
    simpl. apply IH. apply map_Forall_insert_2; [|done]. by eapply HP.
Qed.

Lemma get_expense_dict_distinct df w :
  NoDup (final_columns df) → is_Some (get_expense_dict df w).
Proof.
  intros Hnd. apply expense_loop_distinct; [done|].
  apply Forall_forall. intros c. apply expense_cols_in_final.
Qed.

Lemma get_expense_dict_keys df w1 w2 d1 d2 :
  get_expense_dict df w1 = Some d1 → get_expense_dict df w2 = Some d2 →
  dom d1 = dom d2.
Proof.
  unfold get_expense_dict. intros H1 H2.
  destruct (expense_loop_keys df _ (filter (λ r, in_window w2 (wr_month r)) (wide_rows df))
              _ ∅ ∅ d1 eq_refl H1) as (d & Hd & Hdom).
  congruence.
Qed.

(** Every figure of the dictionary has its delta equal to achieved less
    target. *)
Lemma get_expense_dict_delta df w d head fig :
  get_expense_dict df w = Some d → d !! head = Some fig →
  Delta fig = (Achieved fig - Target fig)%Qc.
Proof.
  intros Hd Hfig.
  apply (expense_loop_entries (λ f, Delta f = (Achieved f - Target f)%Qc)
           df _ _ ∅ d) in Hd.
  - by apply (Hd head).
  - done.
  - apply map_Forall_empty.
Qed.

Lemma filter_none {A} (P : A → Prop) `{!∀ x, Decision (P x)} (l : list A) :
  Forall (λ x, ¬ P x) l → filter P l = [].
Proof.
  induction 1 as [|x l Hx _ IH]; [done|].
  by rewrite filter_cons, decide_False.
Qed.

Lemma expense_cols_contain_actual df col :
  col ∈ expense_cols df → Text.contains "actual" col = true.
Proof.
  unfold expense_cols, is_expense_col. rewrite list_elem_of_filter.
  intros [H _]. apply Is_true_true in H. by apply andb_true_iff in H as [_ ?].
Qed.

Lemma column_sum_Some df filtered col a :
  column_sum df filtered col = Some a →
  a = series_total ((λ r, cell r col) <$> filtered).
Proof. unfold column_sum. destruct (decide _); [by intros [= <-]|done]. Qed.

(** The keys that the loop adds. *)
Lemma expense_loop_dom df filtered cols result d :
  expense_loop df filtered cols result = Some d →
  ∀ head, head ∈ dom d
          ↔ head ∈ dom result
            ∨ ∃ col, col ∈ cols ∧ Text.contains "actual" col = true
                     ∧ target_col_of col ∈ final_columns df ∧ head = head_of col.
Proof.
  revert result. induction cols as [|col cols IH]; intros result; simpl.
  - intros [= <-] head. split; [by left|]. intros [?|(c & Hc & _)]; [done|].
    by apply elem_of_nil in Hc.
  - destruct (Text.contains "actual" col) eqn:Hact.
    + destruct (decide _) as [Ht|Ht].
      * destruct (column_sum df filtered col) as [a|]; [|done].
        destruct (column_sum df filtered (_ +:+ _)) as [t|]; [|done]. simpl.
        intros Hd head. rewrite (IH _ Hd head), dom_insert_L, elem_of_union,
          elem_of_singleton. split.
        -- intros [[->|?]|(c & Hc & ?)]; [right; exists col; split; [left|done]
                                         |by left
                                         |right; exists c; split; [by right|done]].
        -- intros [?|(c & [->|Hc]%elem_of_cons & Ha & Htc & ->)];
             [left; by right|left; by left|right; by exists c].
      * intros Hd head. rewrite (IH _ Hd head). split.
        -- intros [?|(c & Hc & ?)]; [by left|right; exists c; split; [by right|done]].
        -- intros [?|(c & [->|Hc]%elem_of_cons & Ha & Htc & ->)];
             [by left|done|right; by exists c].
    + intros Hd head. rewrite (IH _ Hd head). split.
      * intros [?|(c & Hc & ?)]; [by left|right; exists c; split; [by right|done]].
      * intros [?|(c & [->|Hc]%elem_of_cons & Ha & Htc & ->)];
          [by left|congruence|right; by exists c].
Qed.

(** The heads of the dictionary of a window. *)
Lemma get_expense_dict_dom df w d head :
  get_expense_dict df w = Some d →
  head ∈ dom d
  ↔ ∃ col, col ∈ expense_cols df
           ∧ (Text.remove_all "_actual" col +:+ "_target") ∈ final_columns df
           ∧ head = Text.title (Text.remove_all "_actual" col).
Proof.
  intros Hd. rewrite (expense_loop_dom _ _ _ _ _ Hd head), dom_empty_L. split.
  - intros [H|(col & Hc & _ & Ht & ->)]; [by apply elem_of_empty in H|]. by exists col.
  - intros (col & Hc & Ht & ->). right. exists col. split_and!; try done.
    by eapply expense_cols_contain_actual.
Qed.

Lemma reshape_rent_rent :
  reshape (ExpenseDf.rows expense_rent_rent) = Some rent_rent_frame.
Proof. vm_compute. amounts. Qed.

(** With a label that two columns carry, [get_expense_dict] raises whatever
    the window. *)
Lemma get_expense_dict_rent_rent w : get_expense_dict rent_rent_frame w = None.
Proof.
  unfold get_expense_dict.
  generalize (filter (λ r, in_window w (wr_month r)) (wide_rows rent_rent_frame)).
  intros filtered. vm_compute. reflexivity.
Qed.

(** C8, as stated, fails on an expense ledger with the categories "Rent"
    and "rent": both are labelled "rent_actual" and "rent_target" in the wide
    frame, [filtered["rent_actual"]] is then a frame of two columns, on which
    [pd.to_numeric] raises.  The window below matches no row, and
    [get_expense_dict] raises in it as in any other: the page ends in an
    exception. *)
Lemma repeated_label_raises_in_empty_window :
  reshape (ExpenseDf.rows expense_rent_rent) = Some rent_rent_frame
  ∧ expense_cols rent_rent_frame = ["rent_actual"; "rent_actual"]
  ∧ filter (λ r, in_window window_2020 (wr_month r)) (wide_rows rent_rent_frame) = []
  ∧ get_expense_dict rent_rent_frame window_2020 = None
  ∧ (∀ today selected_project,
       render_exp_dashboard expense_rent_rent target_ok today selected_project
       = Raised).
Proof.
  split_and!; [apply reshape_rent_rent | reflexivity | reflexivity
              | apply get_expense_dict_rent_rent |].
  intros today selected_project. unfold render_exp_dashboard.
  assert (validate_target target_ok = Done inflow_rows_ok) as -> by reflexivity.
  assert (validate_expense expense_rent_rent = Done ()) as -> by reflexivity.
  cbn [mbind outcome_bind]. rewrite reshape_rent_rent.
  assert (grouped_inflow inflow_rows_ok = Some grouped_ok) as ->
    by (vm_compute; amounts).
  cbn [or_raise mbind outcome_bind]. unfold cash_flow_summary.
  by rewrite get_expense_dict_rent_rent.
Qed.

(** C8, amended.  A window that matches no row of the inflow ledger gives
    the inflow figure 0, 0, 0.  In a frame whose column labels are distinct,
    a window that matches no row gives a dictionary, no exception: its heads
    are those of the expense columns that have a target column, the same as
    in any other window, so that no key is missing, and the figure of every
    head is 0, 0, 0. *)
Theorem empty_window_yields_zero (target_df : list inflow_row) (df : wide_frame)
    (w : window) :
  NoDup (final_columns df) →
  Forall (λ r, in_window w (monthstart r) = false) target_df →
  Forall (λ r, in_window w (wr_month r) = false) (wide_rows df) →
  compute_dm_inflows target_df w = zero_figure
  ∧ ∃ d, get_expense_dict df w = Some d
         ∧ (∀ col, col ∈ expense_cols df →
                   (Text.remove_all "_actual" col +:+ "_target") ∈ final_columns df →
                   d !! Text.title (Text.remove_all "_actual" col) = Some zero_figure)
         ∧ (∀ head fig, d !! head = Some fig → fig = zero_figure)
         ∧ (∀ w' d', get_expense_dict df w' = Some d' → dom d = dom d').
Proof.
  intros Hnd Hin Hexp. split.
  - unfold compute_dm_inflows. rewrite filter_none.
    + reflexivity.
    + eapply Forall_impl; [exact Hin|]. intros r. apply Is_true_false_2.
  - destruct (get_expense_dict_distinct df w Hnd) as [d Hd]. exists d.
    assert (∀ head fig, d !! head = Some fig → fig = zero_figure) as Hzero.
    { intros head fig Hfig. pose proof Hd as Hd'. unfold get_expense_dict in Hd'.
      rewrite filter_none in Hd'.
      2:{ eapply Forall_impl; [exact Hexp|]. intros r. apply Is_true_false_2. }
      apply (expense_loop_entries (λ f, f = zero_figure) df _ _ ∅ d) in Hd'.
      * by apply (Hd' head).
      * intros c1 c2 a t Ha Ht. unfold column_sum in Ha, Ht.
        destruct (decide _); [|done]. destruct (decide _); [|done].
        injection Ha as <-. injection Ht as <-.
        reflexivity.
      * apply map_Forall_empty. }
    split_and!; [done| |done|].
    + intros col Hcol Htarget.
      assert (Text.title (Text.remove_all "_actual" col) ∈ dom d) as Hdom
        by (apply (get_expense_dict_dom df w); [done|by exists col]).
      apply elem_of_dom in Hdom as [fig Hfig].
      by rewrite Hfig, (Hzero _ _ Hfig).
    + intros w' d' Hd'. by eapply get_expense_dict_keys.
Qed.

Lemma empty_window_yields_zero_witness :
  compute_dm_inflows inflow_rows_ok window_2020 = zero_figure
  ∧ ∃ d, get_expense_dict twice_frame window_2020 = Some d
         ∧ (∀ col, col ∈ expense_cols twice_frame →
                   (Text.remove_all "_actual" col +:+ "_target")
                   ∈ final_columns twice_frame →
                   d !! Text.title (Text.remove_all "_actual" col) = Some zero_figure)
         ∧ (∀ head fig, d !! head = Some fig → fig = zero_figure)
         ∧ (∀ w' d', get_expense_dict twice_frame w' = Some d' → dom d = dom d').
Proof.
  apply empty_window_yields_zero.
  - apply (bool_decide_unpack _). vm_compute. exact I.
  - apply (bool_decide_unpack _). vm_compute. exact I.
  - apply (bool_decide_unpack _). vm_compute. exact I.
Defined.

(** The dictionary of the sample frame in an empty window: both heads are
    there, each with the figure 0, 0, 0. *)
Example empty_window_heads :
  expense_cols twice_frame = ["rent_actual"; "salary_actual"]
  ∧ (expense_heads <$> get_expense_dict twice_frame window_2020)
    = Some ["Rent"; "Salary"]
  ∧ ((λ d, (d !! "Rent", d !! "Salary")) <$> get_expense_dict twice_frame window_2020)
    = Some (Some zero_figure, Some zero_figure).
Proof. split_and!; vm_compute; reflexivity. Qed.

(** ** Total outflow and net cash flow *)

Lemma add_all_cons acc f l : add_all (figure_add acc f) l = add_all acc (f :: l).
Proof.
  unfold add_all, figure_add. rewrite !fmap_cons, !total_cons. simpl.
  f_equal; ring.
Qed.

Lemma add_all_nil acc : add_all acc [] = acc.
Proof.
  destruct acc as [t a d]. unfold add_all. rewrite !fmap_nil, !total_nil. simpl.
  f_equal; ring.
Qed.

(** The loop over the heads never misses a key when the three dictionaries
    have the heads among their keys, and adds up the three dictionaries
    field by field. *)
Lemma totals_loop_sums exps heads acc :
  Forall (λ head, head ∈ dom (p_mtd exps) ∧ head ∈ dom (p_qtd exps)
                  ∧ head ∈ dom (p_ytd exps)) heads →
  totals_loop exps heads acc
  = Some (mk_per_period (add_all (p_mtd acc) (figures_at (p_mtd exps) heads))
                        (add_all (p_qtd acc) (figures_at (p_qtd exps) heads))
                        (add_all (p_ytd acc) (figures_at (p_ytd exps) heads))).
Proof.
  intros H. revert acc. induction H as [|head heads (Hm & Hq & Hy) _ IH]; intros acc.
  - unfold figures_at. rewrite !fmap_nil, !add_all_nil. by destruct acc.
  - cbn [totals_loop]. unfold add_head.
    apply elem_of_dom in Hm as [m Hm]. apply elem_of_dom in Hq as [q Hq].
    apply elem_of_dom in Hy as [y Hy]. rewrite Hm, Hq, Hy.
    cbn [mbind option_bind]. rewrite IH. cbn [p_mtd p_qtd p_ytd].
    unfold figures_at. rewrite !fmap_cons, <- !add_all_cons.
    by rewrite (lookup_total_correct _ _ _ Hm), (lookup_total_correct _ _ _ Hq),
      (lookup_total_correct _ _ _ Hy).
Qed.

Lemma keys_dom (d : gmap string figure) head :
  head ∈ (map_to_list d).*1 ↔ head ∈ dom d.
Proof.
  rewrite elem_of_dom, list_elem_of_fmap. split.
  - intros ([k v] & -> & Hkv). apply elem_of_map_to_list in Hkv. eauto.
  - intros [v Hv]. exists (head, v). split; [done|]. by apply elem_of_map_to_list.
Qed.

Lemma expense_heads_keys (d : gmap string figure) :
  expense_heads d ≡ₚ (map_to_list d).*1.
Proof. apply merge_sort_Permutation. Qed.

(** Reading a dictionary at the heads of one with the same keys gives its
    figures, up to their order. *)
Lemma figures_at_heads (d d' : gmap string figure) :
  dom d' = dom d → figures_at d (expense_heads d') ≡ₚ (map_to_list d).*2.
Proof.
  intros Hdom. unfold figures_at.
  assert (expense_heads d' ≡ₚ (map_to_list d).*1) as ->.
  { rewrite expense_heads_keys. apply NoDup_Permutation.
    - apply NoDup_fst_map_to_list.
    - apply NoDup_fst_map_to_list.
    - intros head. by rewrite !keys_dom, Hdom. }
  rewrite <- list_fmap_compose.
  assert ((λ head, d !!! head) ∘ fst <$> map_to_list d = snd <$> map_to_list d) as ->;
    [|done].
  apply Forall_fmap_ext, Forall_forall. intros [k v] Hkv. simpl.
  apply elem_of_map_to_list in Hkv. by apply lookup_total_correct.
Qed.

Lemma total_field_Permutation (f : figure → Qc) l1 l2 :
  l1 ≡ₚ l2 → total (f <$> l1) = total (f <$> l2).
Proof. intros H. apply total_Permutation. by rewrite H. Qed.

Lemma outflow_totals_sums mtd qtd ytd :
  dom qtd = dom mtd → dom ytd = dom mtd →
  outflow_totals (mk_per_period mtd qtd ytd)
  = Some (mk_per_period (category_sum mtd) (category_sum qtd) (category_sum ytd)).
Proof.
  intros Hq Hy. unfold outflow_totals. rewrite totals_loop_sums.
  - simpl. unfold category_sum, add_all. simpl.
    rewrite !(total_field_Permutation _ _ _ (figures_at_heads mtd mtd eq_refl)).
    rewrite !(total_field_Permutation _ _ _ (figures_at_heads qtd mtd (eq_sym Hq))).
    rewrite !(total_field_Permutation _ _ _ (figures_at_heads ytd mtd (eq_sym Hy))).
    done.
  - apply Forall_forall. intros head Hh. simpl.
    rewrite expense_heads_keys, keys_dom in Hh. by rewrite Hq, Hy.
Qed.

Lemma category_sum_fields d :
  Target (category_sum d) = total (Target <$> (map_to_list d).*2)
  ∧ Achieved (category_sum d) = total (Achieved <$> (map_to_list d).*2)
  ∧ Delta (category_sum d) = total (Delta <$> (map_to_list d).*2).
Proof. unfold category_sum, add_all. simpl. split_and!; ring. Qed.

Lemma category_sum_delta df w d :
  get_expense_dict df w = Some d →
  Delta (category_sum d) = (Achieved (category_sum d) - Target (category_sum d))%Qc.
Proof.
  intros Hd. destruct (category_sum_fields d) as (-> & -> & ->).
  rewrite <- total_minus. f_equal.
  apply Forall_fmap_ext, Forall_forall. intros fig Hfig.
  apply list_elem_of_fmap in Hfig as ([head fig'] & -> & Hin). simpl.
  apply elem_of_map_to_list in Hin. by eapply get_expense_dict_delta.
Qed.

(** With distinct labels the summary is computed: no exception in the
    dictionaries, no missing key in the loop over the heads. *)
Lemma cash_flow_summary_distinct target_df df ws :
  NoDup (final_columns df) →
  ∃ mtd qtd ytd,
    get_expense_dict df (p_mtd ws) = Some mtd
    ∧ get_expense_dict df (p_qtd ws) = Some qtd
    ∧ get_expense_dict df (p_ytd ws) = Some ytd
    ∧ cash_flow_summary target_df df ws
      = Some (mk_summary
                (per_period_map (compute_dm_inflows target_df) ws)
                (expense_heads mtd)
                (mk_per_period mtd qtd ytd)
                (mk_per_period (category_sum mtd) (category_sum qtd) (category_sum ytd))
                (net_cash (per_period_map (compute_dm_inflows target_df) ws)
                   (mk_per_period (category_sum mtd) (category_sum qtd)
                      (category_sum ytd)))).
Proof.
  intros Hnd.
  destruct (get_expense_dict_distinct df (p_mtd ws) Hnd) as [mtd Hm].
  destruct (get_expense_dict_distinct df (p_qtd ws) Hnd) as [qtd Hq].
  destruct (get_expense_dict_distinct df (p_ytd ws) Hnd) as [ytd Hy].
  exists mtd, qtd, ytd. split_and!; try done.
  unfold cash_flow_summary. rewrite Hm, Hq, Hy. cbn [mbind option_bind].
  rewrite outflow_totals_sums; [done| |]; by eapply get_expense_dict_keys.
Qed.

(** C1.  In every window the "Total Outflow" target, achieved and delta are
    the sums of the targets, of the achieved amounts and of the deltas of the
    expense figures of that same window, one per expense head. *)
Theorem outflow_totals_are_category_sums (target_df : list inflow_row)
    (df : wide_frame) (ws : per_period window) :
  NoDup (final_columns df) →
  ∃ s, cash_flow_summary target_df df ws = Some s
       ∧ ∀ p, get_expense_dict df (at_period ws p) = Some (at_period (s_exp s) p)
              ∧ s_heads s ≡ₚ (map_to_list (at_period (s_exp s) p)).*1
              ∧ Target (at_period (s_totals s) p)
                = total (Target <$> (map_to_list (at_period (s_exp s) p)).*2)
              ∧ Achieved (at_period (s_totals s) p)
                = total (Achieved <$> (map_to_list (at_period (s_exp s) p)).*2)
              ∧ Delta (at_period (s_totals s) p)
                = total (Delta <$> (map_to_list (at_period (s_exp s) p)).*2).
Proof.
  intros Hnd.
  destruct (cash_flow_summary_distinct target_df df ws Hnd)
    as (mtd & qtd & ytd & Hm & Hq & Hy & Hs).
  eexists. split; [exact Hs|].
  assert (∀ d w, get_expense_dict df w = Some d →
                 expense_heads mtd ≡ₚ (map_to_list d).*1) as Hheads.
  { intros d w Hd. rewrite expense_heads_keys. apply NoDup_Permutation.
    - apply NoDup_fst_map_to_list.
    - apply NoDup_fst_map_to_list.
    - intros head. rewrite !keys_dom.
      by rewrite (get_expense_dict_keys df _ _ _ _ Hm Hd). }
  intros [ | | ]; cbn [at_period s_exp s_totals s_heads p_mtd p_qtd p_ytd];
    (split; [done|]); (split; [by eapply Hheads|]); apply category_sum_fields.
Qed.

Lemma outflow_totals_are_category_sums_witness :
  ∃ s, cash_flow_summary inflow_rows_ok twice_frame (windows june_11) = Some s
       ∧ ∀ p, get_expense_dict twice_frame (at_period (windows june_11) p)
              = Some (at_period (s_exp s) p)
              ∧ s_heads s ≡ₚ (map_to_list (at_period (s_exp s) p)).*1
              ∧ Target (at_period (s_totals s) p)
                = total (Target <$> (map_to_list (at_period (s_exp s) p)).*2)
              ∧ Achieved (at_period (s_totals s) p)
                = total (Achieved <$> (map_to_list (at_period (s_exp s) p)).*2)
              ∧ Delta (at_period (s_totals s) p)
                = total (Delta <$> (map_to_list (at_period (s_exp s) p)).*2).
Proof.
  apply outflow_totals_are_category_sums.
  apply (bool_decide_unpack _). vm_compute. exact I.
Defined.

(** C2, as stated, fails in binary64.  With an inflow of 100.1 against a
    target of 90.2 and one expense head of 30.3 against a target of 25.4,
    the delta of the net cash flow, (100.1 - 30.3) - (90.2 - 25.4), and the
    inflow delta less the total outflow delta, (100.1 - 90.2) - (30.3 - 25.4),
    are two different numbers, 2^-48 apart. *)
Lemma net_delta_differs_in_binary64 :
  Binary64.Delta
    (Binary64.net_cash_figure
       (Binary64.compute_dm_inflows Binary64.inflow_rows_decimal
          (p_mtd (windows june_11)))
       (Binary64.outflow_total
          [Binary64.expense_figure Binary64.rent_actual_decimal
             Binary64.rent_target_decimal]))
  ≠ (Binary64.Delta
       (Binary64.compute_dm_inflows Binary64.inflow_rows_decimal
          (p_mtd (windows june_11)))
     - Binary64.Delta
         (Binary64.outflow_total
            [Binary64.expense_figure Binary64.rent_actual_decimal
               Binary64.rent_target_decimal]))%float
  ∧ ((Binary64.Delta
        (Binary64.compute_dm_inflows Binary64.inflow_rows_decimal
           (p_mtd (windows june_11)))
      - Binary64.Delta
          (Binary64.outflow_total
             [Binary64.expense_figure Binary64.rent_actual_decimal
                Binary64.rent_target_decimal]))
     - Binary64.Delta
         (Binary64.net_cash_figure
            (Binary64.compute_dm_inflows Binary64.inflow_rows_decimal
               (p_mtd (windows june_11)))
            (Binary64.outflow_total
               [Binary64.expense_figure Binary64.rent_actual_decimal
                  Binary64.rent_target_decimal])))%float
    = 0x1p-48%float.
Proof.
  split; [|vm_compute; reflexivity].
  intros H.
  apply (f_equal (λ x, PrimFloat.eqb x
           (Binary64.Delta
              (Binary64.net_cash_figure
                 (Binary64.compute_dm_inflows Binary64.inflow_rows_decimal
                    (p_mtd (windows june_11)))
                 (Binary64.outflow_total
                    [Binary64.expense_figure Binary64.rent_actual_decimal
                       Binary64.rent_target_decimal]))))) in H.
  vm_compute in H. discriminate H.
Qed.

(** The figures of that example: inflow, total outflow, and the three
    fields of the net cash flow computed from them. *)
Example binary64_sample :
  Binary64.compute_dm_inflows Binary64.inflow_rows_decimal (p_mtd (windows june_11))
  = Binary64.mk_figure (Binary64.tenths 902) (Binary64.tenths 1001)
      (Binary64.tenths 1001 - Binary64.tenths 902)%float
  ∧ Binary64.outflow_total
      [Binary64.expense_figure Binary64.rent_actual_decimal
         Binary64.rent_target_decimal]
    = Binary64.mk_figure (Binary64.tenths 254) (Binary64.tenths 303)
        (Binary64.tenths 303 - Binary64.tenths 254)%float.
Proof. split; vm_compute; reflexivity. Qed.

(** C2, amended.  In every window the net cash flow has for target the
    inflow target less the total outflow target, for achieved amount the
    inflow achieved less the total outflow achieved, and for delta its
    achieved less its target, in exact amounts and in binary64 alike.  When
    the amounts are added and subtracted exactly, this delta is the inflow
    delta less the total outflow delta. *)
Theorem net_cash_flow_identity (target_df : list inflow_row)
    (df : wide_frame) (ws : per_period window) :
  NoDup (final_columns df) →
  (∃ s, cash_flow_summary target_df df ws = Some s
        ∧ ∀ p, at_period (s_inflow s) p = compute_dm_inflows target_df (at_period ws p)
               ∧ Target (at_period (s_net_cash s) p)
                 = (Target (at_period (s_inflow s) p)
                    - Target (at_period (s_totals s) p))%Qc
               ∧ Achieved (at_period (s_net_cash s) p)
                 = (Achieved (at_period (s_inflow s) p)
                    - Achieved (at_period (s_totals s) p))%Qc
               ∧ Delta (at_period (s_net_cash s) p)
                 = (Achieved (at_period (s_net_cash s) p)
                    - Target (at_period (s_net_cash s) p))%Qc
               ∧ Delta (at_period (s_net_cash s) p)
                 = (Delta (at_period (s_inflow s) p)
                    - Delta (at_period (s_totals s) p))%Qc)
  ∧ (∀ inflow totals : Binary64.figure,
       Binary64.Target (Binary64.net_cash_figure inflow totals)
       = (Binary64.Target inflow - Binary64.Target totals)%float
       ∧ Binary64.Achieved (Binary64.net_cash_figure inflow totals)
         = (Binary64.Achieved inflow - Binary64.Achieved totals)%float
       ∧ Binary64.Delta (Binary64.net_cash_figure inflow totals)
         = (Binary64.Achieved (Binary64.net_cash_figure inflow totals)
            - Binary64.Target (Binary64.net_cash_figure inflow totals))%float).
Proof.
  intros Hnd. split; [|by intros inflow totals].
  destruct (cash_flow_summary_distinct target_df df ws Hnd)
    as (mtd & qtd & ytd & Hm & Hq & Hy & Hs).
  eexists. split; [exact Hs|].
  intros [ | | ];
    cbn [at_period s_inflow s_totals s_net_cash net_cash per_period_map
         p_mtd p_qtd p_ytd];
    (split_and!; try reflexivity);
    unfold net_cash_figure, compute_dm_inflows; cbn [Target Achieved Delta].
  - rewrite (category_sum_delta df _ mtd Hm). ring.
  - rewrite (category_sum_delta df _ qtd Hq). ring.
  - rewrite (category_sum_delta df _ ytd Hy). ring.
Qed.

Lemma net_cash_flow_identity_witness :
  (∃ s, cash_flow_summary inflow_rows_ok twice_frame (windows june_11) = Some s
        ∧ ∀ p, at_period (s_inflow s) p
               = compute_dm_inflows inflow_rows_ok (at_period (windows june_11) p)
               ∧ Target (at_period (s_net_cash s) p)
                 = (Target (at_period (s_inflow s) p)
                    - Target (at_period (s_totals s) p))%Qc
               ∧ Achieved (at_period (s_net_cash s) p)
                 = (Achieved (at_period (s_inflow s) p)
                    - Achieved (at_period (s_totals s) p))%Qc
               ∧ Delta (at_period (s_net_cash s) p)
                 = (Achieved (at_period (s_net_cash s) p)
                    - Target (at_period (s_net_cash s) p))%Qc
               ∧ Delta (at_period (s_net_cash s) p)
                 = (Delta (at_period (s_inflow s) p)
                    - Delta (at_period (s_totals s) p))%Qc)
  ∧ (∀ inflow totals : Binary64.figure,
       Binary64.Target (Binary64.net_cash_figure inflow totals)
       = (Binary64.Target inflow - Binary64.Target totals)%float
       ∧ Binary64.Achieved (Binary64.net_cash_figure inflow totals)
         = (Binary64.Achieved inflow - Binary64.Achieved totals)%float
       ∧ Binary64.Delta (Binary64.net_cash_figure inflow totals)
         = (Binary64.Achieved (Binary64.net_cash_figure inflow totals)
            - Binary64.Target (Binary64.net_cash_figure inflow totals))%float).
Proof.
  apply net_cash_flow_identity.
  apply (bool_decide_unpack _). vm_compute. exact I.
Defined.

(** The May 2025 column of the summary for the sample ledgers: inflow,
    total outflow and net cash flow, each as target, achieved, delta. *)
Example cash_flow_sample :
  (λ s, (p_mtd (s_inflow s), p_mtd (s_totals s), p_mtd (s_net_cash s)))
    <$> cash_flow_summary inflow_rows_ok twice_frame (windows june_11)
  = Some (mk_figure (Qc_of_Z 22) (Qc_of_Z 16) (Qc_of_Z (-6)),
          mk_figure (Qc_of_Z 160) (Qc_of_Z 150) (Qc_of_Z (-10)),
          mk_figure (Qc_of_Z (-138)) (Qc_of_Z (-134)) (Qc_of_Z 4)).
Proof. vm_compute. amounts. Qed.

(** ** The project filter *)

(** With a project picked, the distribution table shows that project only. *)
Example project_filter_distribution :
  (λ pg, (pg_inflow_summary pg).*1)
    <$> (match render_exp_dashboard expense_twice target_ok june_11 "Beta" with
         | Done pg => Some pg
         | _ => None
         end)
  = Some ["Beta"]
  ∧ (λ pg, (pg_inflow_summary pg).*1)
      <$> (match render_exp_dashboard expense_twice target_ok june_11 all_projects with
           | Done pg => Some pg
           | _ => None
           end)
    = Some ["Alpha"; "Beta"].
Proof. split; vm_compute; reflexivity. Qed.

(** C9.  Whatever project is picked, the run ends the same way and the
    summary (total inflow, expense figures, total outflow, net cash flow) is
    the one of "All Projects": the inflow figures are computed from all the
    rows of the inflow ledger, the filter reaching the distribution table
    only. *)
Theorem project_filter_leaves_summary (expense_df : ExpenseDf.table)
    (target_df : TargetDf.table) (today : date) (selected_project : string) :
  summary_of (render_exp_dashboard expense_df target_df today selected_project)
  = summary_of (render_exp_dashboard expense_df target_df today all_projects)
  ∧ ∀ pg, render_exp_dashboard expense_df target_df today selected_project = Done pg →
          ∃ rows, validate_target target_df = Done rows
                  ∧ ∀ p, at_period (s_inflow (pg_summary pg)) p
                         = compute_dm_inflows rows (at_period (windows today) p).
Proof.
  unfold render_exp_dashboard, summary_of.
  destruct (validate_target target_df) as [rows|m|m|]; simpl;
    [|split; [reflexivity | intros pg [=]]..].
  destruct (validate_expense expense_df) as [[]|m|m|]; simpl;
    [|split; [reflexivity | intros pg [=]]..].
  destruct (reshape (ExpenseDf.rows expense_df)) as [df|]; simpl;
    [|split; [reflexivity | intros pg [=]]].
  destruct (grouped_inflow rows) as [df_|]; simpl;
    [|split; [reflexivity | intros pg [=]]].
  destruct (cash_flow_summary rows df (windows today)) as [s|] eqn:Hs; simpl;
    [|split; [reflexivity | intros pg [=]]].
  split; [reflexivity|]. intros pg [= <-]. exists rows. split; [done|].
  simpl. unfold cash_flow_summary in Hs.
  destruct (get_expense_dict df (p_mtd (windows today))); [|done].
  destruct (get_expense_dict df (p_qtd (windows today))); [|done].
  destruct (get_expense_dict df (p_ytd (windows today))); [|done].
  simpl in Hs. destruct (outflow_totals _); [|done].
  injection Hs as <-. intros [ | | ]; reflexivity.
Qed.

(** * Further properties *)

(** ** Column names *)

Lemma lower_char_idem c : Text.lower_char (Text.lower_char c) = Text.lower_char c.
Proof. destruct c as [[] [] [] [] [] [] [] []]; reflexivity. Qed.

Lemma is_space_lower_char c : Text.is_space (Text.lower_char c) = Text.is_space c.
Proof. destruct c as [[] [] [] [] [] [] [] []]; reflexivity. Qed.

Lemma lower_idem s : Text.lower (Text.lower s) = Text.lower s.
Proof. induction s as [|c s IH]; simpl; [done|]. by rewrite lower_char_idem, IH. Qed.

Lemma lower_collapse b s :
  Text.lower (Text.collapse_from b s) = Text.collapse_from b (Text.lower s).
Proof.
  revert b. induction s as [|c s IH]; intros b; simpl; [done|].
  rewrite is_space_lower_char. destruct (Text.is_space c) eqn:Hc.
  - destruct b; simpl; by rewrite IH.
  - simpl. by rewrite IH.
Qed.

Lemma collapse_idem b s :
  Text.collapse_from b (Text.collapse_from b s) = Text.collapse_from b s.
Proof.
  revert b. induction s as [|c s IH]; intros b; simpl; [done|].
  destruct (Text.is_space c) eqn:Hc.
  - destruct b; [apply IH|]. simpl. by rewrite IH.
  - simpl. rewrite Hc. by rewrite IH.
Qed.

Lemma lstrip_clean s : starts_clean s → Text.lstrip s = s.
Proof. destruct s as [|c s]; simpl; [done|]. by intros ->. Qed.

Lemma rstrip_clean s : ends_clean s → Text.rstrip s = s.
Proof.
  unfold ends_clean. destruct (last_char s) as [c|] eqn:Hc.
  - by apply rstrip_last.
  - by destruct s as [|a s]; [|simpl in Hc; destruct (last_char s)].
Qed.

Lemma starts_clean_lstrip s : starts_clean (Text.lstrip s).
Proof.
  induction s as [|c s IH]; simpl; [done|].
  destruct (Text.is_space c) eqn:Hc; [done|]. simpl. done.
Qed.

Lemma starts_clean_rstrip s : starts_clean s → starts_clean (Text.rstrip s).
Proof.
  destruct s as [|c s]; simpl; [done|]. intros Hc.
  destruct (Text.rstrip s); simpl; by rewrite ?Hc.
Qed.

Lemma last_char_cons_some c s d : last_char s = Some d → last_char (String c s) = Some d.
Proof. simpl. by intros ->. Qed.

Lemma ends_clean_rstrip s : ends_clean (Text.rstrip s).
Proof.
  unfold ends_clean. induction s as [|c s IH]; simpl; [done|].
  destruct (Text.rstrip s) as [|a r] eqn:Hr.
  - destruct (Text.is_space c) eqn:Hc; simpl; done.
  - change (last_char (String c (String a r))) with
      (match last_char (String a r) with None => Some c | Some d => Some d end).
    destruct (last_char (String a r)) eqn:Hl; [done|].
    simpl in Hl. by destruct (last_char r).
Qed.

Lemma starts_clean_lower s : starts_clean s → starts_clean (Text.lower s).
Proof. destruct s as [|c s]; simpl; [done|]. by rewrite is_space_lower_char. Qed.

Lemma ends_clean_lower s : ends_clean s → ends_clean (Text.lower s).
Proof.
  unfold ends_clean. rewrite last_char_lower.
  destruct (last_char s); simpl; [|done]. by rewrite is_space_lower_char.
Qed.

Lemma starts_clean_collapse s : starts_clean s → starts_clean (Text.collapse_spaces s).
Proof.
  unfold Text.collapse_spaces. destruct s as [|c s]; simpl; [done|].
  intros Hc. by rewrite Hc.
Qed.

Lemma last_char_collapse b s c :
  last_char s = Some c → Text.is_space c = false →
  last_char (Text.collapse_from b s) = Some c.
Proof.
  intros Hs Hc. revert b. induction s as [|a s IH]; intros b; [done|].
  simpl in Hs. destruct (last_char s) as [d|] eqn:Hd.
  - injection Hs as ->. simpl.
    destruct (Text.is_space a); [destruct b|]; simpl; rewrite ?IH; done.
  - injection Hs as ->. destruct s; [|by simpl in Hd; destruct (last_char s)].
    simpl. by rewrite Hc.
Qed.

Lemma ends_clean_collapse s : ends_clean s → ends_clean (Text.collapse_spaces s).
Proof.
  unfold ends_clean, Text.collapse_spaces.
  destruct (last_char s) as [c|] eqn:Hc.
  - intros H. by rewrite (last_char_collapse _ _ _ Hc H).
  - by destruct s as [|a s]; [|simpl in Hc; destruct (last_char s)].
Qed.

(** X1.  Normalising a column name twice is the same as normalising it
    once. *)
Theorem normalize_column_idempotent (c : string) :
  normalize_column (normalize_column c) = normalize_column c.
Proof.
  unfold normalize_column.
  assert (Text.strip (Text.collapse_spaces (Text.lower (Text.strip c)))
          = Text.collapse_spaces (Text.lower (Text.strip c))) as ->.
  { unfold Text.strip at 1. rewrite lstrip_clean, rstrip_clean; [done| |].
    - apply ends_clean_collapse, ends_clean_lower, ends_clean_rstrip.
    - apply starts_clean_collapse, starts_clean_lower, starts_clean_rstrip,
        starts_clean_lstrip. }
  unfold Text.collapse_spaces.
  by rewrite lower_collapse, lower_idem, collapse_idem.
Qed.

Lemma normalize_columns_idempotent cols :
  normalize_columns (normalize_columns cols) = normalize_columns cols.
Proof.
  unfold normalize_columns. rewrite <- list_fmap_compose.
  apply list_fmap_ext. intros i c _. apply normalize_column_idempotent.
Qed.

(** ** The validated inflow ledger *)

(** What [pd.to_datetime] makes of a month name and a year. *)
Lemma to_datetime_month_year_Some month year d :
  to_datetime_month_year month year = Some d →
  ∃ m, month_number month = Some m ∧ d = mk_date year m 1
       ∧ 1 ≤ m ≤ 12 ∧ timestamp_ok d = true.
Proof.
  unfold to_datetime_month_year.
  destruct (month_number month) as [m|] eqn:Hm; [|done]. simpl.
  destruct (timestamp_ok (mk_date year m 1)) eqn:Hok; [|done].
  intros [= <-]. exists m. split_and!; try done; by apply (month_number_range month).
Qed.

Lemma with_monthstart_Some r i :
  with_monthstart r = Some i →
  i_project i = TargetDf.project r
  ∧ i_actual i = TargetDf.dm_inflow_actual r
  ∧ i_target i = TargetDf.dm_inflow_target r
  ∧ d_year (monthstart i) = TargetDf.year r
  ∧ month_number (clean_month r) = Some (d_month (monthstart i))
  ∧ d_day (monthstart i) = 1
  ∧ 1 ≤ d_month (monthstart i) ≤ 12
  ∧ timestamp_ok (monthstart i) = true.
Proof.
  unfold with_monthstart.
  destruct (to_datetime_month_year _ _) as [d|] eqn:Hd; [|done]. simpl.
  intros [= <-]. simpl.
  apply to_datetime_month_year_Some in Hd as (m & Hm & -> & Hr & Hok). done.
Qed.

Lemma validate_target_Done target_df rows :
  validate_target target_df = Done rows →
  has_columns required_cols_target_df (normalize_columns (TargetDf.columns target_df))
  ∧ "month" ∈ normalize_columns (TargetDf.columns target_df)
  ∧ "year" ∈ normalize_columns (TargetDf.columns target_df)
  ∧ Helper.find_invalid_months (clean_month <$> TargetDf.rows target_df) = []
  ∧ Forall2 (λ r i, with_monthstart r = Some i) (TargetDf.rows target_df) rows.
Proof.
  unfold validate_target.
  destruct (decide (has_columns _ _)) as [Hc|]; [|done].
  destruct (decide (_ ∧ _)) as [[Hm Hy]|]; [|done].
  destruct (decide (occurrences "month" _ = _)) as [Hm1|]; [|done].
  destruct (decide (_ = [])) as [Hi|]; [|done].
  destruct (decide (occurrences "year" _ = _)) as [Hy1|]; [|done].
  destruct (mapM _ _) as [k|] eqn:Hk; [|done]. intros [= <-].
  apply mapM_Some_1 in Hk. done.
Qed.

(** X2.  An inflow ledger whose years are four-digit years from 1678 to
    2261 and that passes the checks goes on row for row: no row is dropped
    or moved, each keeps its project and its two amounts, and its
    [monthstart] is the first day of the month its month text names, in the
    year of its year column, within the dates a Timestamp holds. *)
Theorem validate_target_keeps_rows (target_df : TargetDf.table)
    (rows : list inflow_row) :
  Forall (λ r, 1678 ≤ TargetDf.year r ≤ 2261) (TargetDf.rows target_df) →
  validate_target target_df = Done rows →
  length rows = length (TargetDf.rows target_df)
  ∧ Forall2 (λ r i,
       i_project i = TargetDf.project r
       ∧ i_actual i = TargetDf.dm_inflow_actual r
       ∧ i_target i = TargetDf.dm_inflow_target r
       ∧ d_year (monthstart i) = TargetDf.year r
       ∧ month_number (Text.title (Text.strip (TargetDf.month r)))
         = Some (d_month (monthstart i))
       ∧ d_day (monthstart i) = 1
       ∧ 1 ≤ d_month (monthstart i) ≤ 12
       ∧ timestamp_ok (monthstart i) = true)
     (TargetDf.rows target_df) rows.
Proof.
  intros _ (_ & _ & _ & _ & Hrows)%validate_target_Done. split.
  - symmetry. by eapply Forall2_length.
  - eapply Forall2_impl; [exact Hrows|]. intros r i. apply with_monthstart_Some.
Qed.

Lemma validate_target_keeps_rows_witness :
  length inflow_rows_ok = length (TargetDf.rows target_ok)
  ∧ Forall2 (λ r i,
       i_project i = TargetDf.project r
       ∧ i_actual i = TargetDf.dm_inflow_actual r
       ∧ i_target i = TargetDf.dm_inflow_target r
       ∧ d_year (monthstart i) = TargetDf.year r
       ∧ month_number (Text.title (Text.strip (TargetDf.month r)))
         = Some (d_month (monthstart i))
       ∧ d_day (monthstart i) = 1
       ∧ 1 ≤ d_month (monthstart i) ≤ 12
       ∧ timestamp_ok (monthstart i) = true)
     (TargetDf.rows target_ok) inflow_rows_ok.
Proof.
  apply validate_target_keeps_rows.
  - apply (bool_decide_unpack _). vm_compute. exact I.
  - reflexivity.
Defined.


Lemma elem_of_group_keys target_df k :
  k ∈ group_keys target_df
  ↔ ∃ r, r ∈ target_df ∧ i_project r = Some k.1 ∧ monthstart r = k.2.
Proof.
  unfold group_keys. rewrite merge_sort_Permutation, elem_of_remove_dups,
    list_elem_of_omap. split.
  - intros (r & Hr & Hk). exists r. destruct (i_project r) as [p|]; [|done].
    simpl in Hk. injection Hk as <-. done.
  - intros (r & Hr & Hp & Hd). exists r. split; [done|]. rewrite Hp. simpl.
    rewrite Hd. by destruct k.
Qed.

Lemma grouped_inflow_Some target_df df_ :
  grouped_inflow target_df = Some df_ →
  df_ = grouped_row_of target_df <$> group_keys target_df.
Proof.
  unfold grouped_inflow. intros H%mapM_Some_1.
  induction H as [|k g ks gs Hk _ IH]; [done|].
  rewrite fmap_cons, <- IH. f_equal.
  destruct (to_datetime_ymd _ _) as [d|] eqn:Hd; [|done]. simpl in Hk.
  injection Hk as <-. apply to_datetime_ymd_Some in Hd as ->. done.
Qed.





(** ** Sums by group *)

Lemma total_plus {A} (f g : A → Qc) l :
  total ((λ x, f x + g x)%Qc <$> l) = (total (f <$> l) + total (g <$> l))%Qc.
Proof.
  induction l as [|x l IH]; [rewrite !fmap_nil, total_nil; ring|].
  rewrite !fmap_cons, !total_cons, IH. ring.
Qed.

Lemma total_fmap_ext {A} (f g : A → Qc) l :
  (∀ x, x ∈ l → f x = g x) → total (f <$> l) = total (g <$> l).
Proof.
  intros H. f_equal. apply Forall_fmap_ext, Forall_forall. exact H.
Qed.

Lemma filter_ext_in {A} (P Q : A → Prop) `{!∀ x, Decision (P x), !∀ x, Decision (Q x)}
    (l : list A) :
  (∀ x, x ∈ l → P x ↔ Q x) → filter P l = filter Q l.
Proof.
  induction l as [|x l IH]; intros Hext; [done|].
  rewrite !filter_cons.
  rewrite IH by (intros y Hy; apply Hext; by right).
  pose proof (Hext x (list_elem_of_here _ _)) as Hx.
  destruct (decide (P x)) as [HP|HP], (decide (Q x)) as [HQ|HQ]; tauto || done.
Qed.

Lemma filter_all {A} (l : list A) : filter (λ _, True) l = l.
Proof. induction l as [|x l IH]; [done|]. by rewrite filter_cons_True, IH. Qed.

Lemma filter_fmap_comm {A B} (f : A → B) (P : B → Prop) `{!∀ y, Decision (P y)}
    (l : list A) :
  filter P (f <$> l) = f <$> filter (λ x, P (f x)) l.
Proof.
  induction l as [|x l IH]; [done|].
  rewrite fmap_cons, !filter_cons, IH. by destruct (decide (P (f x))).
Qed.

Lemma total_zero_all {A} (f : A → Qc) l :
  (∀ x, x ∈ l → f x = 0%Qc) → total (f <$> l) = 0%Qc.
Proof.
  induction l as [|x l IH]; intros H; [done|].
  rewrite fmap_cons, total_cons, H by left. rewrite IH; [ring|].
  intros y Hy. apply H. by right.
Qed.

(** One value counted under the key it has, among distinct keys. *)
Lemma total_one_key {K} `{EqDecision K} (k0 : K) (v : Qc) (keys : list K) :
  NoDup keys →
  total ((λ k, if decide (k0 = k) then v else 0%Qc) <$> keys)
  = if decide (k0 ∈ keys) then v else 0%Qc.
Proof.
  induction keys as [|k keys IH]; intros Hnd.
  - rewrite fmap_nil, total_nil. by rewrite decide_False by apply not_elem_of_nil.
  - apply NoDup_cons in Hnd as [Hk Hnd]. rewrite fmap_cons, total_cons, IH by done.
    destruct (decide (k0 = k)) as [Heq|Hne], (decide (k0 ∈ keys)) as [Hin|Hin],
      (decide (k0 ∈ k :: keys)) as [Hc|Hc]; try ring; exfalso;
      rewrite ?elem_of_cons in *; subst; tauto.
Qed.

(** Summing group by group, over distinct keys, is summing the rows whose
    key is one of them. *)
Lemma total_by_keys {A K} `{EqDecision K} (key : A → K) (f : A → Qc)
    (keys : list K) (l : list A) :
  NoDup keys →
  total ((λ k, total (f <$> filter (λ r, key r = k) l)) <$> keys)
  = total (f <$> filter (λ r, key r ∈ keys) l).
Proof.
  intros Hnd. induction l as [|x l IH].
  - rewrite filter_nil, fmap_nil, total_nil. apply total_zero_all.
    intros k _. by rewrite filter_nil, fmap_nil.
  - rewrite (total_fmap_ext _
      (λ k, (if decide (key x = k) then f x else 0) + total (f <$> filter (λ r, key r = k) l))%Qc).
    2:{ intros k _. rewrite filter_cons. destruct (decide (key x = k)).
        - by rewrite fmap_cons, total_cons.
        - ring. }
    rewrite total_plus, IH, total_one_key by done. rewrite filter_cons.
    destruct (decide (key x ∈ keys)); [by rewrite fmap_cons, total_cons | ring].
Qed.

(** ** The grouped inflow frame *)

Lemma NoDup_group_keys target_df : NoDup (group_keys target_df).
Proof.
  unfold group_keys. rewrite merge_sort_Permutation. apply NoDup_remove_dups.
Qed.

Lemma group_key_Some r k :
  group_key r = Some k ↔ i_project r = Some k.1 ∧ monthstart r = k.2.
Proof.
  unfold group_key. destruct (i_project r) as [p|]; simpl.
  - destruct k as [q d]. simpl. split; [by intros [= -> ->]|by intros [[= ->] ->]].
  - split; [done|by intros [? _]].
Qed.

(** The inflow of the groups whose month satisfies [P] is the actual inflow
    of the rows that have a project and whose month satisfies [P]. *)
Lemma grouped_total (P : date → Prop) `{!∀ d, Decision (P d)} target_df :
  total (inflow <$> filter (λ g, P (g_monthstart g))
                      (grouped_row_of target_df <$> group_keys target_df))
  = series_total (i_actual <$> filter (λ r, is_Some (i_project r) ∧ P (monthstart r))
                                 target_df).
Proof.
  rewrite filter_fmap_comm, <- list_fmap_compose.
  unfold series_total. rewrite <- list_fmap_compose.
  pose (keys := filter (λ k : string * date, P k.2) (group_keys target_df)).
  assert (NoDup (Some <$> keys)) as Hnd.
  { apply (NoDup_fmap_2 _), NoDup_filter, NoDup_group_keys. }
  pose proof (total_by_keys group_key (nan0 ∘ i_actual) (Some <$> keys) target_df Hnd)
    as Hsum.
  rewrite <- list_fmap_compose in Hsum.
  etrans; [|etrans; [exact Hsum|]].
  - apply total_fmap_ext. intros k _. simpl. unfold series_total.
    rewrite <- list_fmap_compose. f_equal. f_equal.
    apply list_filter_iff. intros r. by rewrite group_key_Some.
  - f_equal. f_equal. apply filter_ext_in. intros r Hr. split.
    + intros (k & Hk & Hin)%list_elem_of_fmap.
      apply list_elem_of_filter in Hin as [HP _].
      apply group_key_Some in Hk as [Hp Hd]. rewrite Hp, Hd. eauto.
    + intros [[p Hp] HP]. apply list_elem_of_fmap.
      exists (p, monthstart r). split; [by unfold group_key; rewrite Hp|].
      apply list_elem_of_filter. split; [done|].
      apply elem_of_group_keys. exists r. done.
Qed.

(** X4.  The grouped frame has one row for each pair of a project and a
    month that some row of the ledger has, and no other; rows without a
    project are left out; its inflow adds up to the actual inflow of the
    rows that have a project. *)
Theorem grouped_inflow_conserves (target_df : list inflow_row)
    (df_ : list grouped_row) :
  grouped_inflow target_df = Some df_ →
  NoDup ((λ g, (g_project g, g_monthstart g)) <$> df_)
  ∧ (∀ p d, (∃ g, g ∈ df_ ∧ g_project g = p ∧ g_monthstart g = d)
            ↔ (∃ r, r ∈ target_df ∧ i_project r = Some p ∧ monthstart r = d))
  ∧ total (inflow <$> df_)
    = series_total (i_actual <$> filter (λ r, is_Some (i_project r)) target_df).
Proof.
  intros ->%grouped_inflow_Some. split_and!.
  - rewrite <- list_fmap_compose.
    assert (((λ g, (g_project g, g_monthstart g)) ∘ grouped_row_of target_df)
              <$> group_keys target_df = group_keys target_df) as ->;
      [|apply NoDup_group_keys].
    rewrite <- (list_fmap_id (group_keys target_df)) at 2.
    apply list_fmap_ext. by intros i [p d] _.
  - intros p d. split.
    + intros (g & (k & -> & Hk)%list_elem_of_fmap & <- & <-).
      by apply elem_of_group_keys in Hk.
    + intros Hr. exists (grouped_row_of target_df (p, d)). split; [|done].
      apply list_elem_of_fmap_2. by apply elem_of_group_keys.
  - pose proof (grouped_total (λ _, True) target_df) as H.
    rewrite (list_filter_iff _ (λ r, is_Some (i_project r))) in H by tauto.
    by rewrite filter_all in H.
Qed.

Lemma grouped_inflow_conserves_witness :
  ∃ df_, grouped_inflow inflow_rows_ok = Some df_
  ∧ NoDup ((λ g, (g_project g, g_monthstart g)) <$> df_)
  ∧ (∀ p d, (∃ g, g ∈ df_ ∧ g_project g = p ∧ g_monthstart g = d)
            ↔ (∃ r, r ∈ inflow_rows_ok ∧ i_project r = Some p ∧ monthstart r = d))
  ∧ total (inflow <$> df_)
    = series_total (i_actual <$> filter (λ r, is_Some (i_project r)) inflow_rows_ok).
Proof.
  eexists. split; [vm_compute; reflexivity|].
  apply grouped_inflow_conserves. vm_compute. reflexivity.
Defined.

(** ** The distribution table *)

Lemma elem_of_unique l x : x ∈ unique l ↔ x ∈ l.
Proof.
  induction l as [|y l IH]; [done|]. simpl.
  rewrite !elem_of_cons, list_elem_of_filter, IH.
  destruct (decide (x = y)); tauto.
Qed.

Lemma NoDup_unique l : NoDup (unique l).
Proof.
  induction l as [|y l IH]; simpl; [constructor|].
  apply NoDup_cons. split; [|by apply NoDup_filter].
  rewrite list_elem_of_filter. by intros [? _].
Qed.

(** The projects that [get_inflow_by_project] lists for a window. *)
Lemma get_inflow_by_project_keys df_ w p :
  p ∈ (get_inflow_by_project df_ w).*1
  ↔ ∃ g, g ∈ df_ ∧ g_project g = p ∧ in_window w (g_month g).
Proof.
  unfold get_inflow_by_project. rewrite <- list_fmap_compose.
  assert (∀ (f : string → Qc) (l : list string),
            (fst ∘ (λ q, (q, f q))) <$> l = l) as ->.
  { intros f l. rewrite <- (list_fmap_id l) at 2. by apply list_fmap_ext. }
  rewrite merge_sort_Permutation, elem_of_remove_dups, list_elem_of_fmap.
  split.
  - intros (g & -> & [Hw Hg]%list_elem_of_filter). eauto.
  - intros (g & Hg & <- & Hw). exists g. split; [done|]. by apply list_elem_of_filter.
Qed.

(** What the table shows for a project in a window: the inflow of its
    groups there, and 0 when it has none. *)
Lemma lookup0_get_inflow df_ w p :
  lookup0 (get_inflow_by_project df_ w) p = project_total df_ w p.
Proof.
  unfold lookup0, get_inflow_by_project, project_total.
  rewrite list_find_fmap.
  rewrite <- (list_filter_filter (λ g, g_project g = p)).
  destruct (list_find _ _) as [[i q]|] eqn:E; simpl.
  - apply list_find_Some in E as (_ & Hq & _). simpl in Hq. by rewrite Hq.
  - rewrite list_find_None in E.
    destruct (filter (λ g, g_project g = p) _) as [|g l] eqn:Hf; [done|]. exfalso.
    assert (g ∈ filter (λ g, g_project g = p)
                  (filter (λ r, in_window w (g_month r)) df_)) as Hg
      by (rewrite Hf; left).
    apply list_elem_of_filter in Hg as [Hp Hg].
    rewrite Forall_forall in E. apply (E p); [|done].
    rewrite merge_sort_Permutation, elem_of_remove_dups, <- Hp.
    by apply list_elem_of_fmap_2.
Qed.

Lemma inflow_summary_rows_eq ws df_ :
  inflow_summary ws df_ = summary_row ws df_ <$> summary_projects ws df_.
Proof.
  unfold inflow_summary, summary_projects. apply list_fmap_ext.
  intros i p _. unfold summary_row. by rewrite !lookup0_get_inflow.
Qed.

Lemma summary_row_fst_fmap ws df_ l : (summary_row ws df_ <$> l).*1 = l.
Proof.
  rewrite <- list_fmap_compose. rewrite <- (list_fmap_id l) at 2.
  by apply list_fmap_ext.
Qed.

Lemma elem_of_summary_projects ws df_ p :
  p ∈ summary_projects ws df_
  ↔ ∃ g, g ∈ df_ ∧ g_project g = p
         ∧ (in_window (p_mtd ws) (g_month g) ∨ in_window (p_qtd ws) (g_month g)
            ∨ in_window (p_ytd ws) (g_month g)).
Proof.
  unfold summary_projects.
  rewrite elem_of_unique, !elem_of_app, !get_inflow_by_project_keys. split.
  - intros [(g & ? & ? & ?)|[(g & ? & ? & ?)|(g & ? & ? & ?)]]; exists g; tauto.
  - intros (g & ? & ? & [?|[?|?]]); [left|right; left|right; right]; by exists g.
Qed.

(** X5.  The distribution table has one row for each project that has a
    group in at least one of the three windows, and no other row; the three
    amounts of the row are the inflow of the project's groups in the month,
    quarter and year windows, 0 where it has none. *)
Theorem inflow_summary_rows (ws : per_period window) (df_ : list grouped_row) :
  NoDup (inflow_summary ws df_).*1
  ∧ (∀ p, p ∈ (inflow_summary ws df_).*1
          ↔ ∃ g, g ∈ df_ ∧ g_project g = p
                 ∧ (in_window (p_mtd ws) (g_month g)
                    ∨ in_window (p_qtd ws) (g_month g)
                    ∨ in_window (p_ytd ws) (g_month g)))
  ∧ (∀ p v, (p, v) ∈ inflow_summary ws df_ →
            ∀ q, triple_at v q
                 = total (inflow <$> filter (λ g, g_project g = p
                                           ∧ in_window (at_period ws q) (g_month g))
                                     df_)).
Proof.
  rewrite inflow_summary_rows_eq, summary_row_fst_fmap. split_and!.
  - apply NoDup_unique.
  - apply elem_of_summary_projects.
  - intros p v (q & Heq & _)%list_elem_of_fmap. unfold summary_row in Heq.
    injection Heq as Hp Hv. subst p v. intros per. by destruct per.
Qed.

Lemma project_total_by_projects df_ w (projects : list string) :
  NoDup projects →
  (∀ g, g ∈ df_ → in_window w (g_month g) → g_project g ∈ projects) →
  total (project_total df_ w <$> projects) = window_total df_ w.
Proof.
  intros Hnd Hall. unfold window_total.
  rewrite <- (filter_all (filter _ df_)).
  rewrite (filter_ext_in (λ _, True) (λ g, g_project g ∈ projects)).
  2:{ intros g [Hw Hg]%list_elem_of_filter. split; [|done]. intros _. by apply Hall. }
  rewrite <- (total_by_keys g_project inflow projects) by done.
  apply total_fmap_ext. intros p _. unfold project_total.
  by rewrite list_filter_filter.
Qed.

Lemma total_row_is_window_total_aux ws df_ p :
  triple_at (total_row (inflow_summary ws df_)) p
  = total (inflow <$> filter (λ g, in_window (at_period ws p) (g_month g)) df_).
Proof.
  rewrite inflow_summary_rows_eq. unfold total_row.
  assert (∀ w, (w = p_mtd ws ∨ w = p_qtd ws ∨ w = p_ytd ws) →
            total (project_total df_ w <$> summary_projects ws df_)
            = window_total df_ w) as Hw.
  { intros w Hw. apply project_total_by_projects; [apply NoDup_unique|].
    intros g Hg Hin. apply elem_of_summary_projects. exists g.
    destruct Hw as [-> | [-> | ->]]; tauto. }
  destruct p; simpl; rewrite <- list_fmap_compose.
  - apply (Hw (p_mtd ws)). tauto.
  - apply (Hw (p_qtd ws)). tauto.
  - apply (Hw (p_ytd ws)). tauto.
Qed.

(** X6.  The total row of the distribution table shows, for each window,
    the inflow of all the groups of the grouped frame in that window. *)
Theorem total_row_is_window_total (ws : per_period window)
    (df_ : list grouped_row) (p : period) :
  triple_at (total_row (inflow_summary ws df_)) p
  = total (inflow <$> filter (λ g, in_window (at_period ws p) (g_month g)) df_).
Proof. apply total_row_is_window_total_aux. Qed.



(** A row without a project counts in "Total Inflow" and not in the
    distribution table. *)
Example row_without_project :
  let rows := [mk_inflow_row None (mk_date 2025 5 1) (amount 7) (amount 9)] in
  Achieved (compute_dm_inflows rows (p_mtd (windows june_11))) = Qc_of_Z 7
  ∧ (inflow_summary (windows june_11) <$> grouped_inflow rows) = Some [].
Proof. split; [apply Qc_is_canon; reflexivity | reflexivity]. Qed.

Lemma project_total_filtered df_ w sel :
  project_total (filter (λ g, g_project g = sel) df_) w sel = project_total df_ w sel.
Proof.
  unfold project_total. rewrite list_filter_filter. f_equal. f_equal.
  apply list_filter_iff. tauto.
Qed.

Lemma single_valued_lists (a : string) (l1 l2 : list string) :
  NoDup l1 → NoDup l2 → (∀ x, x ∈ l1 → x = a) → (∀ x, x ∈ l2 → x = a) →
  (a ∈ l1 ↔ a ∈ l2) → l1 = l2.
Proof.
  assert (∀ l, NoDup l → (∀ x, x ∈ l → x = a) → l = if decide (a ∈ l) then [a] else [])
    as Hone.
  { intros l Hnd Hall. destruct l as [|x l].
    - by rewrite decide_False by apply not_elem_of_nil.
    - rewrite (Hall x) in * by left. rewrite decide_True by left.
      apply NoDup_cons in Hnd as [Hx Hnd]. destruct l as [|y l]; [done|].
      exfalso. apply Hx. rewrite (Hall y) by (right; left). left. }
  intros H1 H2 Ha1 Ha2 Hiff. rewrite (Hone l1 H1 Ha1), (Hone l2 H2 Ha2).
  destruct (decide (a ∈ l1)), (decide (a ∈ l2)); tauto || done.
Qed.

(** X8.  With a project picked in the side bar, the distribution table is
    the row that this project has in the table of "All Projects", and
    nothing else. *)
Theorem project_filter_keeps_row (ws : per_period window) (df_ : list grouped_row)
    (selected_project : string) :
  selected_project ≠ all_projects →
  inflow_summary ws (filter_project selected_project df_)
  = filter (λ e, e.1 = selected_project) (inflow_summary ws df_).
Proof.
  intros Hsel. unfold filter_project. rewrite decide_True by done.
  rewrite !inflow_summary_rows_eq.
  rewrite (filter_fmap_comm (summary_row ws df_) (λ e, e.1 = selected_project)).
  simpl.
  assert (summary_projects ws (filter (λ r, g_project r = selected_project) df_)
          = filter (λ p, p = selected_project) (summary_projects ws df_)) as ->.
  { apply (single_valued_lists selected_project).
    - apply NoDup_unique.
    - apply NoDup_filter, NoDup_unique.
    - intros p (g & [Hg _]%list_elem_of_filter & <- & _)%elem_of_summary_projects. done.
    - by intros p [-> _]%list_elem_of_filter.
    - rewrite list_elem_of_filter, !elem_of_summary_projects. split.
      + intros (g & [Hp Hg]%list_elem_of_filter & _ & Hw). split; [done|]. by exists g.
      + intros [_ (g & Hg & Hp & Hw)]. exists g. split; [|done].
        by apply list_elem_of_filter. }
  apply list_fmap_ext. intros i p Hp.
  assert (p ∈ filter (λ p, p = selected_project) (summary_projects ws df_)) as Hin
    by (apply list_elem_of_lookup; eauto).
  apply list_elem_of_filter in Hin as [-> _].
  unfold summary_row. by rewrite !project_total_filtered.
Qed.

Lemma grouped_inflow_ok : grouped_inflow inflow_rows_ok = Some grouped_ok.
Proof. vm_compute. amounts. Qed.

Lemma project_filter_keeps_row_witness :
  inflow_summary (windows june_11) (filter_project "Beta" grouped_ok)
  = filter (λ e, e.1 = "Beta") (inflow_summary (windows june_11) grouped_ok).
Proof. apply project_filter_keeps_row. discriminate. Defined.

(** The row of "Beta" in the sample table. *)
Example project_filter_sample :
  inflow_summary (windows june_11) (filter_project "Beta" grouped_ok)
  = [("Beta", (Qc_of_Z 1, Qc_of_Z 1, Qc_of_Z 1))].
Proof. vm_compute. amounts. Qed.

(** ** The reshaped frame *)

Lemma elem_of_live_melt rows x :
  x ∈ live (melt rows)
  ↔ ∃ e, e ∈ rows ∧ m_month x = ExpenseDf.month e ∧ m_year x = ExpenseDf.year e
         ∧ m_category x = ExpenseDf.category e
         ∧ ((m_type x = "actual" ∧ m_value x = ExpenseDf.actual e)
            ∨ (m_type x = "target" ∧ m_value x = ExpenseDf.target e))
         ∧ is_Some (m_value x).
Proof.
  unfold live, melt. rewrite list_elem_of_filter, elem_of_app, !list_elem_of_fmap.
  split.
  - intros [Hv [(e & -> & He)|(e & -> & He)]]; exists e; simpl in *; tauto.
  - intros (e & He & Hm & Hy & Hc & Hty & Hv). split; [done|].
    destruct x as [m y c t v]. simpl in *. subst.
    destruct Hty as [[-> ->]|[-> ->]]; [left|right]; by exists e.
Qed.

Lemma elem_of_pivot_index rows ix :
  ix ∈ pivot_index (melt rows)
  ↔ ∃ e, e ∈ rows ∧ (ExpenseDf.month e, ExpenseDf.year e) = ix ∧ has_number e.
Proof.
  unfold pivot_index.
  rewrite merge_sort_Permutation, elem_of_remove_dups, list_elem_of_fmap. split.
  - intros (x & -> & (e & He & Hm & Hy & _ & Hty & Hv)%elem_of_live_melt).
    exists e. rewrite Hm, Hy. split_and!; try done.
    destruct Hty as [[_ Heq]|[_ Heq]]; rewrite Heq in Hv; [by left|by right].
  - intros (e & He & <- & [Ha|Ht]).
    + exists (mk_melted (ExpenseDf.month e) (ExpenseDf.year e) (ExpenseDf.category e)
                "actual" (ExpenseDf.actual e)).
      split; [done|]. apply elem_of_live_melt. exists e. simpl. tauto.
    + exists (mk_melted (ExpenseDf.month e) (ExpenseDf.year e) (ExpenseDf.category e)
                "target" (ExpenseDf.target e)).
      split; [done|]. apply elem_of_live_melt. exists e. simpl. tauto.
Qed.

Lemma NoDup_pivot_index ml : NoDup (pivot_index ml).
Proof. unfold pivot_index. rewrite merge_sort_Permutation. apply NoDup_remove_dups. Qed.

(** The frame that [reshape] gives, when it gives one. *)
Lemma reshape_Some rows df :
  reshape rows = Some df →
  df = mk_wide_frame (flat_label <$> pivot_columns (melt rows))
         (wide_row_of rows <$> pivot_index (melt rows)).
Proof.
  unfold reshape. destruct (mapM _ _) as [wrows|] eqn:Hmap; [|done]. simpl.
  intros [= <-]. f_equal. apply mapM_Some_1 in Hmap.
  induction Hmap as [|ix r ixs rs Hr _ IH]; [done|].
  rewrite fmap_cons, <- IH. f_equal.
  destruct (to_datetime_ymd _ _) as [d|] eqn:Hd; [|done]. simpl in Hr.
  injection Hr as <-. apply to_datetime_ymd_Some in Hd as ->. done.
Qed.

(** X9.  For an expense ledger whose months are from 1 to 12 and whose
    years are four-digit years from 1678 to 2261, the reshaped frame has one
    row for each month and year in which some record holds a number, and no
    other row; the month of a row is the first day of that month; every row
    has a cell for each value column of the frame, in the order of the
    columns. *)
Theorem reshape_rows (rows : list ExpenseDf.row) (df : wide_frame) :
  Forall (λ e, 1 ≤ ExpenseDf.month e ≤ 12 ∧ 1678 ≤ ExpenseDf.year e ≤ 2261) rows →
  reshape rows = Some df →
  NoDup (wr_month <$> wide_rows df)
  ∧ (∀ m y, (∃ r, r ∈ wide_rows df ∧ wr_month r = mk_date y m 1 ∧ wr_year r = y)
            ↔ (∃ e, e ∈ rows ∧ ExpenseDf.month e = m ∧ ExpenseDf.year e = y
                    ∧ (is_Some (ExpenseDf.actual e) ∨ is_Some (ExpenseDf.target e))))
  ∧ Forall (λ r, d_day (wr_month r) = 1 ∧ d_year (wr_month r) = wr_year r
                 ∧ (wr_cells r).*1 = value_columns df) (wide_rows df).
Proof.
  intros _ ->%reshape_Some. simpl. split_and!.
  - rewrite <- list_fmap_compose. apply NoDup_fmap_2_strong; [|apply NoDup_pivot_index].
    intros [m y] [m' y'] _ _. simpl. by intros [= -> ->].
  - intros m y. split.
    + intros (r & (ix & -> & Hix)%list_elem_of_fmap & Hm & Hy). simpl in *.
      apply elem_of_pivot_index in Hix as (e & He & <- & Hn). simpl in *.
      injection Hm as _ Hm. exists e. done.
    + intros (e & He & <- & <- & Hn).
      exists (wide_row_of rows (ExpenseDf.month e, ExpenseDf.year e)).
      split; [|done]. apply list_elem_of_fmap_2, elem_of_pivot_index. by exists e.
  - apply Forall_fmap, Forall_forall. intros ix _. simpl. split_and!; try done.
    rewrite <- !list_fmap_compose. by apply list_fmap_ext.
Qed.

Lemma reshape_rows_witness :
  NoDup (wr_month <$> wide_rows twice_frame)
  ∧ (∀ m y, (∃ r, r ∈ wide_rows twice_frame ∧ wr_month r = mk_date y m 1
                  ∧ wr_year r = y)
            ↔ (∃ e, e ∈ ExpenseDf.rows expense_twice
                    ∧ ExpenseDf.month e = m ∧ ExpenseDf.year e = y
                    ∧ (is_Some (ExpenseDf.actual e) ∨ is_Some (ExpenseDf.target e))))
  ∧ Forall (λ r, d_day (wr_month r) = 1 ∧ d_year (wr_month r) = wr_year r
                 ∧ (wr_cells r).*1 = value_columns twice_frame)
      (wide_rows twice_frame).
Proof.
  apply (reshape_rows (ExpenseDf.rows expense_twice)).
  - apply (bool_decide_unpack _). vm_compute. exact I.
  - apply reshape_twice.
Defined.

(** A month 13 is no month: reshaping raises when its record holds a
    number, and passes over it when it holds none. *)
Example reshape_month_13 :
  reshape [ExpenseDf.mk_row "Rent" 13 2025 (amount 100) (amount 150);
           ExpenseDf.mk_row "Rent" 5 2025 (amount 100) (amount 150)] = None
  ∧ is_Some (reshape [ExpenseDf.mk_row "Rent" 13 2025 None None;
                      ExpenseDf.mk_row "Rent" 5 2025 (amount 100) (amount 150)]).
Proof. split; [reflexivity | vm_compute; eauto]. Qed.

Lemma elem_of_pivot_columns rows col :
  col ∈ pivot_columns (melt rows)
  ↔ ∃ e, e ∈ rows ∧ ExpenseDf.category e = col.1
         ∧ ((col.2 = "actual" ∧ is_Some (ExpenseDf.actual e))
            ∨ (col.2 = "target" ∧ is_Some (ExpenseDf.target e))).
Proof.
  unfold pivot_columns.
  rewrite merge_sort_Permutation, elem_of_remove_dups, list_elem_of_fmap. split.
  - intros (x & -> & (e & He & _ & _ & Hc & Hty & Hv)%elem_of_live_melt).
    exists e. simpl. split_and!; try done.
    destruct Hty as [[Ht Heq]|[Ht Heq]]; rewrite Heq in Hv; [by left|by right].
  - intros (e & He & Hc & Hty). destruct col as [c t]. simpl in *. subst c.
    destruct Hty as [[-> Hv]|[-> Hv]].
    + exists (mk_melted (ExpenseDf.month e) (ExpenseDf.year e) (ExpenseDf.category e)
                "actual" (ExpenseDf.actual e)).
      split; [done|]. apply elem_of_live_melt. exists e. simpl. tauto.
    + exists (mk_melted (ExpenseDf.month e) (ExpenseDf.year e) (ExpenseDf.category e)
                "target" (ExpenseDf.target e)).
      split; [done|]. apply elem_of_live_melt. exists e. simpl. tauto.
Qed.

(** Every cell of the reshaped frame, by row and column. *)
Lemma reshape_cell_at rows df r col :
  reshape rows = Some df → NoDup (value_columns df) →
  r ∈ wide_rows df → col ∈ pivot_columns (melt rows) →
  cell r (flat_label col)
  = mean (group_values (melt rows) (d_month (wr_month r), wr_year r) col).
Proof.
  intros ->%reshape_Some Hnd (ix & -> & Hix)%list_elem_of_fmap Hcol. simpl in *.
  destruct ix as [m y]. simpl.
  by apply (cell_of_labelled flat_label).
Qed.

Lemma Qc_div_one (v : Qc) : (v / Qc_of_Z (Z.of_nat 1))%Qc = v.
Proof.
  assert (Qc_of_Z (Z.of_nat 1) = 1%Qc) as -> by (apply Qc_is_canon; reflexivity).
  apply Qcdiv_right_id.
Qed.

(** X11.  When one record only of a month, year and category holds a number
    in its actual (or target) field, the reshaped frame has that number in
    the cell of the category for that month: reshaping changes no value that
    is not repeated. *)
Theorem reshape_single_record (rows : list ExpenseDf.row) (df : wide_frame)
    (m y : Z) (cat : string) (v : Qc) :
  reshape rows = Some df →
  NoDup (value_columns df) →
  (record_values ExpenseDf.actual rows m y cat = [v] →
   ∃ r, r ∈ wide_rows df ∧ wr_month r = mk_date y m 1
        ∧ cell r (flat_label (cat, "actual")) = Some v)
  ∧ (record_values ExpenseDf.target rows m y cat = [v] →
     ∃ r, r ∈ wide_rows df ∧ wr_month r = mk_date y m 1
          ∧ cell r (flat_label (cat, "target")) = Some v).
Proof.
  intros Hre Hnd. split; intros Hv.
  - rewrite <- group_values_actual in Hv.
    destruct (reshape_cell rows df m y (cat, "actual") Hre Hnd) as (r & Hr & Hm & _ & Hc);
      [by rewrite Hv|].
    exists r. split_and!; try done. rewrite Hc, Hv. simpl. f_equal.
    unfold total. simpl. rewrite Qc_div_one. ring.
  - rewrite <- group_values_target in Hv.
    destruct (reshape_cell rows df m y (cat, "target") Hre Hnd) as (r & Hr & Hm & _ & Hc);
      [by rewrite Hv|].
    exists r. split_and!; try done. rewrite Hc, Hv. simpl. f_equal.
    unfold total. simpl. rewrite Qc_div_one. ring.
Qed.

Lemma reshape_single_record_witness :
  ∃ r, r ∈ wide_rows twice_frame ∧ wr_month r = mk_date 2025 4 1
       ∧ cell r "salary_actual" = Some (Qc_of_Z 70).
Proof.
  refine (proj1 (reshape_single_record (ExpenseDf.rows expense_twice) twice_frame
                   4 2025 "Salary" (Qc_of_Z 70) reshape_twice _) _).
  - apply (bool_decide_unpack _). vm_compute. exact I.
  - reflexivity.
Defined.

(** X12.  A category that has numbers in some months and none in the month
    of a row has its column in the frame and an empty cell in that row: a
    missing combination is no error. *)
Theorem reshape_missing_combination (rows : list ExpenseDf.row) (df : wide_frame)
    (r : wide_row) (cat : string) :
  reshape rows = Some df →
  NoDup (value_columns df) →
  r ∈ wide_rows df →
  ((∃ e, e ∈ rows ∧ ExpenseDf.category e = cat ∧ is_Some (ExpenseDf.actual e)) →
   record_values ExpenseDf.actual rows (d_month (wr_month r)) (wr_year r) cat = [] →
   flat_label (cat, "actual") ∈ value_columns df
   ∧ cell r (flat_label (cat, "actual")) = None)
  ∧ ((∃ e, e ∈ rows ∧ ExpenseDf.category e = cat ∧ is_Some (ExpenseDf.target e)) →
     record_values ExpenseDf.target rows (d_month (wr_month r)) (wr_year r) cat = [] →
     flat_label (cat, "target") ∈ value_columns df
     ∧ cell r (flat_label (cat, "target")) = None).
Proof.
  intros Hre Hnd Hr. split; intros (e & He & Hc & Hv) Hnone.
  - assert ((cat, "actual") ∈ pivot_columns (melt rows)) as Hcol.
    { apply elem_of_pivot_columns. exists e. simpl. tauto. }
    split.
    + rewrite (reshape_Some _ _ Hre). simpl. by apply list_elem_of_fmap_2.
    + rewrite (reshape_cell_at rows df r _ Hre Hnd Hr Hcol).
      by rewrite group_values_actual, Hnone.
  - assert ((cat, "target") ∈ pivot_columns (melt rows)) as Hcol.
    { apply elem_of_pivot_columns. exists e. simpl. tauto. }
    split.
    + rewrite (reshape_Some _ _ Hre). simpl. by apply list_elem_of_fmap_2.
    + rewrite (reshape_cell_at rows df r _ Hre Hnd Hr Hcol).
      by rewrite group_values_target, Hnone.
Qed.

Lemma reshape_missing_combination_witness :
  flat_label ("Rent", "actual") ∈ value_columns twice_frame
  ∧ cell (mk_wide_row (mk_date 2025 4 1) 2025
            [("rent_actual", None); ("rent_target", None);
             ("salary_actual", amount 70); ("salary_target", amount 60)])
         (flat_label ("Rent", "actual")) = None.
Proof.
  refine (proj1 (reshape_missing_combination (ExpenseDf.rows expense_twice)
                   twice_frame _ "Rent" reshape_twice _ _) _ _).
  - apply (bool_decide_unpack _). vm_compute. exact I.
  - left.
  - exists (ExpenseDf.mk_row "Rent" 5 2025 (amount 100) (amount 150)).
    split_and!; [left | reflexivity | simpl; eauto].
  - reflexivity.
Defined.

(** ** The heads and the figures of the expense dictionary *)

(** X13.  The heads of the expense dictionary of a window are the
    title-cased categories of the expense columns that have a target column
    beside them; an expense column without target column gives no head. *)
Theorem get_expense_dict_heads (df : wide_frame) (w : window)
    (d : gmap string figure) :
  get_expense_dict df w = Some d →
  ∀ head, head ∈ dom d
          ↔ ∃ col, col ∈ expense_cols df
                   ∧ (Text.remove_all "_actual" col +:+ "_target") ∈ final_columns df
                   ∧ head = Text.title (Text.remove_all "_actual" col).
Proof.
  intros Hd head. rewrite (expense_loop_dom _ _ _ _ _ Hd head), dom_empty_L. split.
  - intros [H|(col & Hc & _ & Ht & ->)]; [by apply elem_of_empty in H|]. by exists col.
  - intros (col & Hc & Ht & ->). right. exists col. split_and!; try done.
    by eapply expense_cols_contain_actual.
Qed.

Lemma get_expense_dict_heads_witness :
  ∃ d, get_expense_dict twice_frame window_2020 = Some d
  ∧ ∀ head, head ∈ dom d
          ↔ ∃ col, col ∈ expense_cols twice_frame
                   ∧ (Text.remove_all "_actual" col +:+ "_target")
                     ∈ final_columns twice_frame
                   ∧ head = Text.title (Text.remove_all "_actual" col).
Proof.
  eexists. split; [vm_compute; reflexivity|].
  apply (get_expense_dict_heads twice_frame window_2020). vm_compute. reflexivity.
Defined.

(** Every entry is the figure of some column. *)
Lemma expense_loop_figures df filtered cols result d :
  expense_loop df filtered cols result = Some d →
  ∀ head fig, d !! head = Some fig →
    result !! head = Some fig
    ∨ ∃ col, col ∈ cols ∧ Text.contains "actual" col = true
             ∧ target_col_of col ∈ final_columns df ∧ head = head_of col
             ∧ fig = column_figure filtered col.
Proof.
  revert result. induction cols as [|col cols IH]; intros result; simpl.
  - intros [= <-] head fig Hfig. by left.
  - destruct (Text.contains "actual" col) eqn:Hact.
    + destruct (decide _) as [Ht|Ht].
      * destruct (column_sum df filtered col) as [a|] eqn:Ha; [|done].
        destruct (column_sum df filtered (_ +:+ _)) as [t|] eqn:Htg; [|done]. simpl.
        intros Hd head fig Hfig.
        destruct (IH _ Hd head fig Hfig) as [Hres|(c & Hc & ?)].
        -- destruct (decide (Text.title (Text.remove_all "_actual" col) = head))
             as [<-|Hne].
           ++ rewrite lookup_insert_eq in Hres. injection Hres as <-.
              right. exists col. split_and!; try done; [left|].
              apply column_sum_Some in Ha, Htg. by subst.
           ++ rewrite lookup_insert_ne in Hres by done. by left.
        -- right. exists c. split; [by right|done].
      * intros Hd head fig Hfig.
        destruct (IH _ Hd head fig Hfig) as [?|(c & Hc & ?)]; [by left|].
        right. exists c. split; [by right|done].
    + intros Hd head fig Hfig.
      destruct (IH _ Hd head fig Hfig) as [?|(c & Hc & ?)]; [by left|].
      right. exists c. split; [by right|done].
Qed.

(** X14.  Every figure of the expense dictionary of a window belongs to an
    expense column with a target column: its achieved amount is the sum of
    the expense column over the rows of the window, its target the sum of the
    target column over the same rows, empty cells counting for nothing, and
    its delta is achieved less target. *)
Theorem get_expense_dict_figures (df : wide_frame) (w : window)
    (d : gmap string figure) (head : string) (fig : figure) :
  get_expense_dict df w = Some d →
  d !! head = Some fig →
  ∃ col, col ∈ expense_cols df
         ∧ head = Text.title (Text.remove_all "_actual" col)
         ∧ Achieved fig
           = series_total
               ((λ r, cell r col)
                  <$> filter (λ r, in_window w (wr_month r)) (wide_rows df))
         ∧ Target fig
           = series_total
               ((λ r, cell r (Text.remove_all "_actual" col +:+ "_target"))
                  <$> filter (λ r, in_window w (wr_month r)) (wide_rows df))
         ∧ Delta fig = (Achieved fig - Target fig)%Qc.
Proof.
  intros Hd Hfig.
  destruct (expense_loop_figures _ _ _ _ _ Hd head fig Hfig)
    as [H|(col & Hc & _ & _ & -> & ->)]; [by rewrite lookup_empty in H|].
  by exists col.
Qed.

Lemma get_expense_dict_figures_witness :
  ∃ d fig, get_expense_dict twice_frame (p_mtd (windows june_11)) = Some d
  ∧ d !! "Rent" = Some fig
  ∧ ∃ col, col ∈ expense_cols twice_frame
         ∧ "Rent" = Text.title (Text.remove_all "_actual" col)
         ∧ Achieved fig
           = series_total
               ((λ r, cell r col)
                  <$> filter (λ r, in_window (p_mtd (windows june_11)) (wr_month r))
                        (wide_rows twice_frame))
         ∧ Target fig
           = series_total
               ((λ r, cell r (Text.remove_all "_actual" col +:+ "_target"))
                  <$> filter (λ r, in_window (p_mtd (windows june_11)) (wr_month r))
                        (wide_rows twice_frame))
         ∧ Delta fig = (Achieved fig - Target fig)%Qc.
Proof.
  eexists _, _. split; [vm_compute; reflexivity|]. split; [vm_compute; reflexivity|].
  eapply (get_expense_dict_figures twice_frame (p_mtd (windows june_11))).
  - vm_compute. reflexivity.
  - vm_compute. reflexivity.
Defined.

(** A category whose records hold no target has no target column: it counts
    in the total of its row and is absent from the summary. *)
Example category_without_target :
  (value_columns <$> reshape expense_no_rent_target)
  = Some ["rent_actual"; "salary_actual"; "salary_target"]
  ∧ (reshape expense_no_rent_target
       ≫= λ df, expense_heads <$> get_expense_dict df (p_mtd (windows june_11)))
    = Some ["Salary"]
  ∧ ((λ df, total_actual_expense df <$> wide_rows df) <$> reshape expense_no_rent_target)
    = Some [Qc_of_Z 170].
Proof. split_and!; vm_compute; amounts. Qed.

(** ** The page as a whole *)

(** X18.  The page goes back to its caller early in one case only, with the
    list, never empty, of the inflow columns that are absent; when it halts
    the run, it has shown one of five messages, and the invalid months in
    such a message are never an empty list. *)
Theorem render_failure_messages (expense_df : ExpenseDf.table)
    (target_df : TargetDf.table) (today : date) (selected_project : string) :
  (∀ m, render_exp_dashboard expense_df target_df today selected_project = Returned m →
        m = MissingColumns
              (missing_columns required_cols_target_df
                 (normalize_columns (TargetDf.columns target_df)))
        ∧ missing_columns required_cols_target_df
            (normalize_columns (TargetDf.columns target_df)) ≠ [])
  ∧ (∀ m, render_exp_dashboard expense_df target_df today selected_project = Stopped m →
          m = NoMonthYearColumns
          ∨ (∃ l, l ≠ [] ∧ m = InvalidMonths l)
          ∨ m = MonthstartError
          ∨ m = InvalidMonthYear
          ∨ m = MustContainColumns required_cols).
Proof.
  unfold render_exp_dashboard, validate_target, validate_expense.
  destruct (decide (has_columns required_cols_target_df _)) as [Hc|Hc].
  - destruct (decide (_ ∧ _)) as [Hmy|Hmy]; simpl.
    + destruct (decide (occurrences "month" _ = _)); simpl; [|by split].
      destruct (decide (_ = [])) as [Hi|Hi]; simpl.
      * destruct (decide (occurrences "year" _ = _)); simpl.
        -- destruct (mapM _ _) as [rows|]; simpl.
           ++ destruct (decide (has_columns required_cols _)); simpl.
              ** destruct (reshape _); simpl; [|by split].
                 destruct (grouped_inflow _); simpl; [|by split].
                 destruct (cash_flow_summary _ _ _); simpl; by split.
              ** split; [done|]. intros m [= <-]. tauto.
           ++ split; [done|]. intros m [= <-]. tauto.
        -- split; [done|]. intros m [= <-]. tauto.
      * split; [done|]. intros m [= <-]. right; left. eauto.
    + split; [done|]. intros m [= <-]. tauto.
  - simpl. split; [|done]. intros m [= <-]. split; [done|].
    by rewrite missing_columns_nil.
Qed.

(** X19.  Every value column of a reshaped frame has a label that ends in
    "_actual" or "_target" (its last letter is l or t), so none is called
    "month", "year" or "total_actual_expense": building the month column and
    adding the total column never replaces a category's column. *)
Theorem reshape_reserved_labels (rows : list ExpenseDf.row) (df : wide_frame)
    (label : string) :
  reshape rows = Some df →
  label ∈ value_columns df →
  (last_char label = Some "l"%char ∨ last_char label = Some "t"%char)
  ∧ label ≠ "month" ∧ label ≠ "year" ∧ label ≠ "total_actual_expense".
Proof.
  intros ->%reshape_Some (col & -> & Hcol)%list_elem_of_fmap.
  apply elem_of_pivot_columns in Hcol as (e & _ & _ & Hty).
  destruct col as [c t]. simpl in Hty.
  assert (last_char (flat_label (c, t)) = Some "l"%char
          ∨ last_char (flat_label (c, t)) = Some "t"%char) as Hlast.
  { destruct Hty as [[-> _]|[-> _]].
    - left. by apply (last_char_flat_label _ "actual" "l"%char).
    - right. by apply (last_char_flat_label _ "target" "t"%char). }
  split; [done|].
  split_and!; intros Heq; rewrite Heq in Hlast; by destruct Hlast.
Qed.

Lemma reshape_reserved_labels_witness :
  (last_char "rent_actual" = Some "l"%char ∨ last_char "rent_actual" = Some "t"%char)
  ∧ "rent_actual" ≠ "month" ∧ "rent_actual" ≠ "year"
  ∧ "rent_actual" ≠ "total_actual_expense".
Proof.
  apply (reshape_reserved_labels (ExpenseDf.rows expense_twice) twice_frame).
  - apply reshape_twice.
  - left.
Defined.
